(** * marcia / Archive / kernels.py : the multi-task kernel assembler

  A shallow embedding of the class [Kernels] of
  [src/marcia/Archive/kernels.py]: the basis functions [gMdef] and
  [gdMdef], the convolution integrand, the grid builder [KcMM], the
  constructor [__init__] and the call-time evaluation [__call__].

  Python floats are read as real numbers in the basis functions and as an
  arbitrary scalar type in the assembler; exceptions are values of [exn];
  the attributes of [self] are a record threaded through a state and error
  monad; numpy, scipy, multiprocessing and the compiled backend
  [marcia.backend.kernel] are parameters. *)

From Stdlib Require Import Reals Lra QArith Qreals.
From stdpp Require Import gmap strings list fin_maps pretty.

Set Default Proof Using "Type".
Local Open Scope string_scope.
Local Open Scope nat_scope.

(** ** Exceptions and results *)

Inductive exn : Type :=
  | ValueError (msg : string)      (* raised by the [raise] statement of [__init__] *)
  | KeyError (key : string)        (* a dict subscript with an absent key *)
  | IndexError (idx : nat)         (* a list or array subscript out of range *)
  | NameError (name : string)      (* a bare name bound neither globally nor locally *)
  | AttributeError (name : string) (* an attribute of [self] read before it is set *)
  | TypeError (msg : string)       (* an operator applied to operands it rejects *)
  | LibraryError (origin : string) (* raised inside numpy, scipy or the backend *)
  | WorkerFailure (e : exn).       (* re-raised by [Pool.map] from a worker *)

Inductive result (A : Type) : Type :=
  | Ok (a : A)
  | Err (e : exn).
Arguments Ok {A} a.
Arguments Err {A} e.

Definition result_bind {A B} (f : A → result B) (r : result A) : result B :=
  match r with Ok a => f a | Err e => Err e end.

#[global] Instance result_ret : MRet result := λ A a, Ok a.
#[global] Instance result_mbind : MBind result := λ A B f r, result_bind f r.

Definition of_option {A} (o : option A) (e : exn) : result A :=
  match o with Some a => Ok a | None => Err e end.

(** The smoothness parameter is loosely typed in the source: the string
  sentinel ['0.0'] or a number. *)
Inductive Nu : Type :=
  | NuStr (s : string)
  | NuNum (q : Q).

(** [nu == '0.0'] and [nu == 5/2]: Python's [==] between a string and a
  number is [False]. *)
Definition nu_eq_str (nu : Nu) (s : string) : bool :=
  match nu with NuStr t => bool_decide (t = s) | NuNum _ => false end.

Definition nu_eq_num (nu : Nu) (q : Q) : bool :=
  match nu with NuStr _ => false | NuNum p => Qeq_bool p q end.

(** ** Name resolution

  The names bound at module level by the import statements and the class
  statement of kernels.py, and the names bound in the body of the class. A
  bare name inside a method is looked up among the locals, the module
  globals and the builtins, never in the class body. *)
Definition module_globals : list string :=
  ["sys"; "cmath"; "np"; "sp"; "const"; "time"; "configparser"; "interp1d";
   "quad"; "RegularGridInterpolator"; "Pool"; "itertools"; "Data";
   "GPconfig"; "kernel"; "Kernels"].

Definition class_attributes : list string :=
  ["__init__"; "__call__"; "_spkv_"; "_spgamma_"; "gMdef"; "gdMdef";
   "gMMdef_integrand"; "KcMM"].

Definition load_global {A} (name : string) (bound : A) : result A :=
  if bool_decide (name ∈ module_globals) then Ok bound else Err (NameError name).

(** ** Basis functions (BasisFunctionEvaluator) *)

Module Basis.

(** What [marcia.backend.kernel.gMdef] hands back: one number in the 5/2 and
  7/2 regimes, a triple that the general branch unpacks. *)
Inductive kout : Type :=
  | KScalar (x : R)
  | KTriple (a b c : R).

(** scipy.special.kv, scipy.special.gamma, scipy.integrate.quad (which
  returns the integral and an error estimate) and the two functions of the
  compiled backend [marcia.backend.kernel]. *)
Class SpecialFunctions : Type := {
  sp_special_kv : R → R → R;
  sp_special_gamma : R → R;
  quad : (R → result R) → result (R * R);
  kernel_gMdef : R → R → Nu → result kout;
  kernel_gdMdef : R → R → Nu → result (R * R)
}.

Section WithLibraries.
Context {S : SpecialFunctions}.
Local Open Scope R_scope.

(** The two methods of the class. *)
Definition _spkv_ (tau l1 : R) : R := sp_special_kv 2 (3 * Rabs tau / l1).
Definition _spgamma_ (x : R) : R := sp_special_gamma x.

(** Arithmetic on [nu]: a float operand with a string raises. *)
Definition nu_float (nu : Nu) : result R :=
  match nu with
  | NuNum q => Ok (Q2R q)
  | NuStr _ => Err (TypeError "can't multiply sequence by non-int of type 'float'")
  end.

Definition as_scalar (k : kout) : result R :=
  match k with
  | KScalar x => Ok x
  | KTriple _ _ _ => Err (TypeError "unsupported operand type(s) for *: 'tuple' and 'float'")
  end.

Definition unpack3 (k : kout) : result (R * R * R) :=
  match k with
  | KTriple a b c => Ok (a, b, c)
  | KScalar _ => Err (TypeError "cannot unpack non-iterable float object")
  end.

Inductive branch : Type :=
  | SquaredExponential | Matern52 | Matern72 | GeneralMatern.

(** The if / elif / elif / else chain of [gMdef]. *)
Definition gMdef_branch (nu : Nu) : branch :=
  if nu_eq_str nu "0.0" then SquaredExponential
  else if nu_eq_num nu (5 # 2) then Matern52
  else if nu_eq_num nu (7 # 2) then Matern72
  else GeneralMatern.

(** The body of the [else] branch of [gMdef]. *)
Definition gMdef_general (tau : R) (nu : Nu) (l1 : R) : result kout :=
  k ← kernel_gMdef tau l1 nu;
  '(A, B, C) ← unpack3 k;
  g ← load_global "_spgamma_" _spgamma_;
  n ← nu_float nu;
  let A := A * Rpower (g (n / 2 - 1 / 4) / g (n / 2 + 1 / 4)) (1 / 2)
             * Rpower (g (n + 1 / 2) / g n) (1 / 4) in
  let B := B / g (n / 2 - 1 / 4) in
  kv ← load_global "_spkv_" _spkv_;
  Ok (KScalar (A ^ 2 * B * Rpower C (n / 2 - 1 / 4) * kv tau l1 / PI)).

Definition gMdef (tau : R) (nu : Nu) (l1 : R) : result kout :=
  let x := Rabs tau in
  match gMdef_branch nu with
  | SquaredExponential => Ok (KScalar (exp (- (x ^ 2) / (2 * l1 ^ 2))))
  | Matern52 =>
      k ← kernel_gMdef tau l1 nu;
      kv ← load_global "_spkv_" _spkv_;
      a ← as_scalar k;
      Ok (KScalar (a * kv tau l1 / PI))
  | Matern72 => kernel_gMdef tau l1 nu
  | GeneralMatern => gMdef_general tau nu l1
  end.

Definition gdMdef (tau : R) (nu : Nu) (l1 : R) : result R :=
  n ← nu_float nu;
  let B := sp_special_kv (1 / 4 * (5 - 2 * n))
             (sqrt 2 * sqrt n * sqrt (tau ^ 2) / l1) in
  g ← load_global "_spgamma_" _spgamma_;
  let C := sqrt (g (1 / 2 + n) / g n) in
  '(A, D) ← kernel_gdMdef tau l1 nu;
  let D := D * g (1 / 4 + n / 2) in
  Ok (A * B * C / D).

(** [gMMdef_integrand]: the two smoothness values are read from
    [self.nu1] and [self.nu2] when a worker runs it. *)
Definition py_mul (a b : kout) : result R :=
  match a, b with
  | KScalar x, KScalar y => Ok (x * y)
  | _, _ => Err (TypeError "can't multiply sequence by non-int of type 'tuple'")
  end.

Definition gMMdef_integrand (nu1 nu2 : Nu) (params : R * R * R) : result R :=
  let '(tau, l1, l2) := params in
  let integrand u :=
    a ← gMdef u nu1 l1;
    b ← gMdef (tau - u) nu2 l2;
    py_mul a b in
  '(integral, _) ← quad integrand;
  Ok integral.

End WithLibraries.
End Basis.

(** ** The assembler (KernelGridBuilder and CovarianceAssembler) *)

(** The dictionary keys [f't_{i}{j}'] and [f'Task_{k}']. *)
Definition pair_key (i j : nat) : string := "t_" +:+ pretty i +:+ pretty j.
Definition task_key (k : nat) : string := "Task_" +:+ pretty k.

(** The message of the [ValueError] of [__init__]. *)
Definition length_mismatch (ndata nmodel : nat) : string :=
  "Error: data length is " +:+ pretty ndata
    +:+ " and does not match the number of kernels " +:+ pretty nmodel.

(** [itertools.product] of three sequences: the last one varies fastest. *)
Definition product3 {A} (xs ys zs : list A) : list (A * A * A) :=
  x ← xs; y ← ys; z ← zs; [(x, y, z)].

(** [np.array(flat).reshape((k, n))]: [k] consecutive rows of length [n]. *)
Fixpoint chunk {A} (k n : nat) (flat : list A) : list (list A) :=
  match k with
  | 0 => []
  | S k' => take n flat :: chunk k' n (drop n flat)
  end.

Definition reshape3 {A} (n0 n1 n2 : nat) (flat : list A) : list (list (list A)) :=
  map (chunk n1 n2) (chunk n0 (n1 * n2) flat).

(** [Pool.map]: the work items complete in some order; every result is
  written to the slot of its item, the first failure to complete is kept
  and re-raised once all items are done. *)
Definition pool_step {A B} (f : A → result B) (xs : list A)
    (st : list (option B) * option exn) (i : nat) : list (option B) * option exn :=
  match xs !! i with
  | None => st
  | Some x =>
      match f x with
      | Ok b => (<[i := Some b]> st.1, st.2)
      | Err e => (st.1, match st.2 with None => Some e | Some e0 => Some e0 end)
      end
  end.

Definition pool_map {A B} (order : list nat) (f : A → result B) (xs : list A)
    : result (list B) :=
  let st := foldl (pool_step f xs) (replicate (length xs) None, None) order in
  match st.2 with
  | Some e => Err (WorkerFailure e)
  | None => of_option (mapM (λ slot, slot) st.1) (LibraryError "Pool.map")
  end.

(** Sequential enumeration of the same work items, in the words of the
  specification: item after item, in the order of the list. *)
Fixpoint sequential_map {A B} (f : A → result B) (xs : list A) : result (list B) :=
  match xs with
  | [] => Ok []
  | x :: xs' => b ← f x; bs ← sequential_map f xs'; Ok (b :: bs)
  end.

(** The dense array in the words of the specification: entry (a, b, c) is
    the integral at the coordinate (tau[a], l2[b], l1[c]). *)
Definition enumerated_grid {A B} (f : A * A * A → B) (tau l2 l1 : list A)
    : list (list (list B)) :=
  map (λ t, map (λ y, map (λ x, f (t, y, x)) l1) l2) tau.

(** Float arithmetic and comparison; [np.linspace]; the integral at one
  grid coordinate ([gMMdef_integrand], for the two smoothness values of the
  pair); the order in which the pool's workers complete a work list;
  scipy: whether the constructor of RegularGridInterpolator accepts the
  axes and values, how its [__call__] reads the list [[scalar, matrix]] as
  an array of sample points ([None] when it rejects the list), and the
  multilinear formula at one point; [np.block] of a nested list of blocks
  ([None] when it raises). *)
Class Libraries (F : Type) : Type := {
  Fsub : F → F → F;
  Fmul : F → F → F;
  Fleb : F → F → bool;
  F_of_Z : Z → F;
  linspace : F → F → nat → list F;
  integrand : Nu → Nu → F * F * F → result F;
  completion_order : list (F * F * F) → list nat;
  rgi_accepts : list F → list F → list F → list (list (list F)) → bool;
  as_points : F → list (list F) → option (list (list (F * F * F)));
  rgi_linear : list F * list F * list F → list (list (list F)) → F * F * F → F;
  np_block : list (list (list (list F))) → option (list (list F))
}.

Section Assembler.
Context {F : Type} {L : Libraries F}.

Abbreviation matrix := (list (list F)).

(** *** Configuration: [GPConfig(filename).__dict__] *)
Record TaskConfig : Type := { l_min : F; l_max : F }.

Record GPConfig : Type := {
  models : list string;
  n_Tasks : nat;
  self_scale : bool;
  nus : list Nu;
  n_points : nat;
  Task : gmap string TaskConfig
}.

(** *** Interpolators *)
Record RegularGridInterpolator : Type := {
  grid : list F * list F * list F;
  values : list matrix;
  bounds_error : bool;
  fill_value : option F
}.

(** What [self.CovMat] holds: an interpolator, or what [np.transpose]
    makes of one (a zero-dimensional object array). *)
Inductive covobj : Type :=
  | Interp (g : RegularGridInterpolator)
  | NpTransposed (o : covobj).

(** *** The attributes of [self], and the work handed to the pool *)
Record Kernels : Type := {
  self_models : list string;
  nTasks : nat;
  nmodel : nat;
  self_self_scale : bool;
  self_nus : list Nu;
  self_data : list (list F);
  ndata : nat;
  nu1 : option Nu;
  nu2 : option Nu;
  CovMat : gmap string covobj;
  CovMat_all : option matrix;
  data_tau : gmap string matrix;
  dispatched : list (list (F * F * F))
}.

Definition blank : Kernels :=
  {| self_models := []; nTasks := 0; nmodel := 0; self_self_scale := false;
     self_nus := []; self_data := []; ndata := 0; nu1 := None; nu2 := None;
     CovMat := ∅; CovMat_all := None; data_tau := ∅; dispatched := [] |}.

Definition set_config (MTGP : GPConfig) (data : list (list F)) (s : Kernels) : Kernels :=
  {| self_models := models MTGP; nTasks := n_Tasks MTGP; nmodel := n_Tasks MTGP;
     self_self_scale := self_scale MTGP; self_nus := nus MTGP;
     self_data := data; ndata := length data;
     nu1 := nu1 s; nu2 := nu2 s; CovMat := CovMat s; CovMat_all := CovMat_all s;
     data_tau := data_tau s; dispatched := dispatched s |}.

Definition set_nu1 (nu : Nu) (s : Kernels) : Kernels :=
  {| self_models := self_models s; nTasks := nTasks s; nmodel := nmodel s;
     self_self_scale := self_self_scale s; self_nus := self_nus s;
     self_data := self_data s; ndata := ndata s;
     nu1 := Some nu; nu2 := nu2 s; CovMat := CovMat s; CovMat_all := CovMat_all s;
     data_tau := data_tau s; dispatched := dispatched s |}.

Definition set_nu2 (nu : Nu) (s : Kernels) : Kernels :=
  {| self_models := self_models s; nTasks := nTasks s; nmodel := nmodel s;
     self_self_scale := self_self_scale s; self_nus := self_nus s;
     self_data := self_data s; ndata := ndata s;
     nu1 := nu1 s; nu2 := Some nu; CovMat := CovMat s; CovMat_all := CovMat_all s;
     data_tau := data_tau s; dispatched := dispatched s |}.

Definition set_CovMat (m : gmap string covobj) (s : Kernels) : Kernels :=
  {| self_models := self_models s; nTasks := nTasks s; nmodel := nmodel s;
     self_self_scale := self_self_scale s; self_nus := self_nus s;
     self_data := self_data s; ndata := ndata s;
     nu1 := nu1 s; nu2 := nu2 s; CovMat := m; CovMat_all := CovMat_all s;
     data_tau := data_tau s; dispatched := dispatched s |}.

Definition set_CovMat_all (m : option matrix) (s : Kernels) : Kernels :=
  {| self_models := self_models s; nTasks := nTasks s; nmodel := nmodel s;
     self_self_scale := self_self_scale s; self_nus := self_nus s;
     self_data := self_data s; ndata := ndata s;
     nu1 := nu1 s; nu2 := nu2 s; CovMat := CovMat s; CovMat_all := m;
     data_tau := data_tau s; dispatched := dispatched s |}.

Definition set_data_tau (m : gmap string matrix) (s : Kernels) : Kernels :=
  {| self_models := self_models s; nTasks := nTasks s; nmodel := nmodel s;
     self_self_scale := self_self_scale s; self_nus := self_nus s;
     self_data := self_data s; ndata := ndata s;
     nu1 := nu1 s; nu2 := nu2 s; CovMat := CovMat s; CovMat_all := CovMat_all s;
     data_tau := m; dispatched := dispatched s |}.

Definition log_dispatch (work : list (F * F * F)) (s : Kernels) : Kernels :=
  {| self_models := self_models s; nTasks := nTasks s; nmodel := nmodel s;
     self_self_scale := self_self_scale s; self_nus := self_nus s;
     self_data := self_data s; ndata := ndata s;
     nu1 := nu1 s; nu2 := nu2 s; CovMat := CovMat s; CovMat_all := CovMat_all s;
     data_tau := data_tau s; dispatched := dispatched s ++ [work] |}.

(** *** Methods as computations on [self]: a state and error monad; the
    state reached when an exception is raised is kept. *)
Definition M (A : Type) : Type := Kernels → result A * Kernels.

Definition ret {A} (a : A) : M A := λ s, (Ok a, s).
Definition bind {A B} (m : M A) (k : A → M B) : M B :=
  λ s, match m s with
       | (Ok a, s') => k a s'
       | (Err e, s') => (Err e, s')
       end.
Definition raise {A} (e : exn) : M A := λ s, (Err e, s).
Definition lift {A} (r : result A) : M A := λ s, (r, s).
Definition get {A} (field : Kernels → A) : M A := λ s, (Ok (field s), s).
Definition modify (f : Kernels → Kernels) : M unit := λ s, (Ok tt, f s).

Notation "x ←$ m ; k" := (bind m (λ x, k))
  (at level 20, m at level 100, k at level 200, right associativity,
   format "x  ←$  m ;  '/' k").
Notation "m ;$ k" := (bind m (λ _, k))
  (at level 100, k at level 200, right associativity).

(** [for x in xs: body x] and the list comprehension [[body x for x in xs]]. *)
Fixpoint for_each {A} (xs : list A) (body : A → M unit) : M unit :=
  match xs with
  | [] => ret tt
  | x :: xs' => body x ;$ for_each xs' body
  end.

Fixpoint comprehension {A B} (xs : list A) (body : A → M B) : M (list B) :=
  match xs with
  | [] => ret []
  | x :: xs' => b ←$ body x; bs ←$ comprehension xs' body; ret (b :: bs)
  end.

Definition range (n : nat) : list nat := seq 0 n.

(** *** KernelGridBuilder: [KcMM] *)

(** The constructor of scipy's RegularGridInterpolator. *)
Definition new_RegularGridInterpolator (points : list F * list F * list F)
    (vals : list matrix) (be : bool) (fv : option F)
    : result RegularGridInterpolator :=
  let '(p0, p1, p2) := points in
  if rgi_accepts p0 p1 p2 vals
  then Ok {| grid := points; values := vals; bounds_error := be; fill_value := fv |}
  else Err (LibraryError "RegularGridInterpolator").

(** [pool.map(self.gMMdef_integrand, params)]: the workers run the method
    on the [self] of the moment of the call. *)
Definition pool_map_integrand (params : list (F * F * F)) : M (list F) :=
  n1 ←$ get nu1;
  n2 ←$ get nu2;
  modify (log_dispatch params) ;$
  let worker p :=
    a ← of_option n1 (AttributeError "nu1");
    b ← of_option n2 (AttributeError "nu2");
    integrand a b p in
  lift (pool_map (completion_order params) worker params).

Definition KcMM (l1_values l2_values tau_values : list F) : M RegularGridInterpolator :=
  let params := product3 tau_values l2_values l1_values in
  integrals ←$ pool_map_integrand params;
  let integrals :=
    reshape3 (length tau_values) (length l2_values) (length l1_values) integrals in
  lift (new_RegularGridInterpolator (tau_values, l2_values, l1_values)
          integrals false None).

(** *** CovarianceAssembler: [__init__] *)

(** [a[:, None] - b[None, :]] *)
Definition outer_difference (a b : list F) : matrix :=
  map (λ x, map (Fsub x) b) a.

Definition subscript {A} (d : gmap string A) (key : string) : M A :=
  lift (of_option (d !! key) (KeyError key)).

Definition item {A} (l : list A) (i : nat) : M A :=
  lift (of_option (l !! i) (IndexError i)).

(** The body of the two nested loops of [__init__]. *)
Definition pair_body (MTGP : GPConfig) (i j : nat) : M unit :=
  ns ←$ get self_nus;
  a ←$ item ns i;
  modify (set_nu1 a) ;$
  ns ←$ get self_nus;
  b ←$ item ns j;
  modify (set_nu2 b) ;$
  if bool_decide (i ≤ j) then
    ti ←$ subscript (Task MTGP) (task_key (i + 1));
    let l1_values := linspace (l_min ti) (l_max ti) (n_points MTGP) in
    tj ←$ subscript (Task MTGP) (task_key (j + 1));
    let l2_values := linspace (l_min tj) (l_max tj) (n_points MTGP) in
    let tau_values := linspace (F_of_Z (-10)) (F_of_Z 10) (n_points MTGP) in
    g ←$ KcMM l1_values l2_values tau_values;
    cm ←$ get CovMat;
    modify (set_CovMat (<[pair_key i j := Interp g]> cm)) ;$
    d ←$ get self_data;
    di ←$ item d i;
    dj ←$ item d j;
    dt ←$ get data_tau;
    modify (set_data_tau (<[pair_key i j := outer_difference di dj]> dt))
  else
    dt ←$ get data_tau;
    lag ←$ subscript dt (pair_key i j);
    modify (set_data_tau (<[pair_key j i := lag]> dt)) ;$
    cm ←$ get CovMat;
    o ←$ subscript cm (pair_key i j);
    modify (set_CovMat (<[pair_key j i := NpTransposed o]> cm)).

(** The inner loop, for one [i], and the two nested loops. *)
Definition row (MTGP : GPConfig) (i : nat) : M unit :=
  n ←$ get nmodel;
  for_each (range n) (λ j, pair_body MTGP i j).

Definition pair_loop (MTGP : GPConfig) : M unit :=
  n ←$ get nmodel;
  for_each (range n) (row MTGP).

Definition __init__ (data : list (list F)) (MTGP : GPConfig) : M unit :=
  modify (set_config MTGP data) ;$
  d ←$ get self_data;
  n ←$ get nmodel;
  if negb (bool_decide (length d = n))
  then raise (ValueError (length_mismatch (length d) n))
  else
    modify (set_CovMat ∅) ;$
    modify (set_CovMat_all (Some [])) ;$
    modify (set_data_tau ∅) ;$
    pair_loop MTGP.

(** [self] when the length check has passed and the loops start. *)
Definition prepared (data : list (list F)) (MTGP : GPConfig) : Kernels :=
  set_data_tau ∅ (set_CovMat_all (Some []) (set_CovMat ∅ (set_config MTGP data blank))).

(** A computation that never ends in the [ValueError] of the length check. *)
Definition never_ValueError {A} (m : M A) : Prop :=
  ∀ s msg, (m s).1 ≠ Err (ValueError msg).

(** [Kernels(data, filename)]: a fresh object, initialised. *)
Definition construct (data : list (list F)) (MTGP : GPConfig) : result unit * Kernels :=
  __init__ data MTGP blank.


(** *** CovarianceAssembler: [__call__] *)

(** scipy's [RegularGridInterpolator.__call__]: the sample points are
    checked against the ends of the axes only when [bounds_error] is set;
    a point outside the grid gets [fill_value], or, when that is [None], the
    value of the multilinear formula (extrapolation). *)
Definition within (axis : list F) (x : F) : bool :=
  match head axis, last axis with
  | Some lo, Some hi => Fleb lo x && Fleb x hi
  | _, _ => false
  end.

Definition out_of_bounds (g : RegularGridInterpolator) (p : F * F * F) : bool :=
  let '(x0, x1, x2) := p in
  let '(g0, g1, g2) := grid g in
  negb (within g0 x0 && within g1 x1 && within g2 x2).

Definition bounds_message : string := "One of the requested xi is out of bounds".

Definition rgi_value (g : RegularGridInterpolator) (p : F * F * F) : F :=
  match fill_value g with
  | Some v => if out_of_bounds g p then v else rgi_linear (grid g) (values g) p
  | None => rgi_linear (grid g) (values g) p
  end.

Definition rgi_call (g : RegularGridInterpolator) (x : F) (lag : matrix) : result matrix :=
  match as_points x lag with
  | None => Err (LibraryError "RegularGridInterpolator.__call__")
  | Some pts =>
      if bounds_error g && existsb (existsb (out_of_bounds g)) pts
      then Err (LibraryError bounds_message)
      else Ok (map (map (rgi_value g)) pts)
  end.

(** Calling what [self.CovMat] holds. *)
Definition call_object (o : covobj) (x : F) (lag : matrix) : result matrix :=
  match o with
  | Interp g => rgi_call g x lag
  | NpTransposed _ => Err (TypeError "'numpy.ndarray' object is not callable")
  end.

(** A number times an array. *)
Definition scale (c : F) (m : matrix) : matrix := map (map (Fmul c)) m.

(** The parameter matrix [pars], of shape (rows, 2): a list of rows
    (amplitude, length-scale). One entry of the nested comprehension:
    [pars[i,0] * pars[j,0] * self.CovMat[key]([pars[i,1] * pars[j,1],
    self.data_tau[key]])]. *)
Definition block (pars : list (F * F)) (i j : nat) : M matrix :=
  pi ←$ item pars i;
  pj ←$ item pars j;
  cm ←$ get CovMat;
  f ←$ subscript cm (pair_key i j);
  dt ←$ get data_tau;
  lag ←$ subscript dt (pair_key i j);
  v ←$ lift (call_object f (Fmul pi.2 pj.2) lag);
  ret (scale (Fmul pi.1 pj.1) v).

Definition blocks (pars : list (F * F)) : M (list (list matrix)) :=
  n ←$ get nTasks;
  comprehension (range n) (λ j,
    n ←$ get nTasks;
    comprehension (range n) (λ i, block pars i j)).

Definition __call__ (pars : list (F * F)) : M matrix :=
  bs ←$ blocks pars;
  m ←$ lift (of_option (np_block bs) (LibraryError "np.block"));
  modify (set_CovMat_all (Some m)) ;$
  ret m.

(** Construction followed by one evaluation. *)
Definition construct_and_call (data : list (list F)) (MTGP : GPConfig)
    (pars : list (F * F)) : result matrix * Kernels :=
  bind (__init__ data MTGP) (λ _, __call__ pars) blank.

End Assembler.

Arguments GPConfig F : clear implicits.
Arguments TaskConfig F : clear implicits.
Arguments Kernels F : clear implicits.
Arguments RegularGridInterpolator F : clear implicits.
Arguments covobj F : clear implicits.
Arguments M F : clear implicits.

(** The assembler over the reals with the integrand of the source: the
    other library functions as given. *)
Definition with_basis_integrand {S : Basis.SpecialFunctions} (L : Libraries R)
    : Libraries R :=
  {| Fsub := Fsub; Fmul := Fmul; Fleb := Fleb; F_of_Z := F_of_Z;
     linspace := linspace; integrand := Basis.gMMdef_integrand;
     completion_order := completion_order; rgi_accepts := rgi_accepts;
     as_points := as_points; rgi_linear := rgi_linear; np_block := np_block |}.

(** ** A small instance over the integers

    Integer arrays and stand-ins for the libraries, to run the methods on
    concrete inputs: the "integral" at a coordinate encodes the coordinate,
    the workers complete in reverse order and the interpolator accepts every
    grid. As scipy does, the interpolator, which has three axes, rejects the
    list [[scalar, matrix]] of two coordinates; as numpy does, [np.block]
    rejects an empty list. *)
Module Sample.

Definition hstack (row : list (list (list Z))) : list (list Z) :=
  foldr (zip_with app) (replicate (length (default [] (head row))) []) row.

#[global] Instance integers : Libraries Z := {|
  Fsub := Z.sub;
  Fmul := Z.mul;
  Fleb := Z.leb;
  F_of_Z := λ z, z;
  linspace := λ a b n, map (λ k, a + (b - a) * Z.of_nat k / Z.of_nat (n - 1))%Z (seq 0 n);
  integrand := λ _ _ '(tau, l1, l2), Ok (100 * tau + 10 * l1 + l2)%Z;
  completion_order := λ work, reverse (seq 0 (length work));
  rgi_accepts := λ _ _ _ _, true;
  as_points := λ _ _, None;
  rgi_linear := λ _ _ '(t, a, b), (t + a + b)%Z;
  np_block := λ rows,
    if forallb (λ row, negb (Nat.eqb (length row) 0)) rows && negb (Nat.eqb (length rows) 0)
    then Some (concat (map hstack rows)) else None
|}.

Definition task (lo hi : Z) : TaskConfig Z := {| l_min := lo; l_max := hi |}.

Definition config (n : nat) (smoothness : list Nu) : GPConfig Z :=
  {| models := []; n_Tasks := n; self_scale := false; nus := smoothness;
     n_points := 2;
     Task := list_to_map ((λ k, (task_key (S k), task 1 3)) <$> seq 0 n) |}.

Definition SE : Nu := NuStr "0.0".

Definition no_tasks : GPConfig Z := config 0 [].
Definition one_task : GPConfig Z := config 1 [SE].
Definition two_tasks : GPConfig Z := config 2 [SE; SE].
Definition three_tasks : GPConfig Z := config 3 [SE; SE; SE].

(** Observation arrays: one task; two tasks with 5 and 7 points. *)
Definition one_array : list (list Z) := [[0; 1]]%Z.
Definition two_arrays : list (list Z) := [[0; 1; 2; 3; 4]; [0; 1; 2; 3; 4; 5; 6]]%Z.

(** The one-task assembler once constructed, and a [self] on which the two
    smoothness attributes are set. *)
Definition built : Kernels Z := (construct one_array one_task).2.
Definition ready : Kernels Z := set_nu2 SE (set_nu1 SE blank).

(** Stand-ins for scipy.special, quad (a one-point rule) and the backend. *)
#[global] Instance flat_backend : Basis.SpecialFunctions := {|
  Basis.sp_special_kv := λ _ _, 0%R;
  Basis.sp_special_gamma := λ _, 1%R;
  Basis.quad := λ f, match f 0%R with Ok v => Ok (v, 0%R) | Err e => Err e end;
  Basis.kernel_gMdef := λ _ _ nu,
    if nu_eq_num nu (5 # 2) || nu_eq_num nu (7 # 2)
    then Ok (Basis.KScalar 1%R) else Ok (Basis.KTriple 1%R 1%R 1%R);
  Basis.kernel_gdMdef := λ _ _ _, Ok (1%R, 1%R)
|}.

End Sample.

(** ** Further inputs: a pool whose worker fails at the lag 10, and
    configurations that lack the smoothness values or the task sections. *)
Module Cases.

Definition failing_worker : Libraries Z := {|
  Fsub := Z.sub;
  Fmul := Z.mul;
  Fleb := Z.leb;
  F_of_Z := λ z, z;
  linspace := linspace (Libraries := Sample.integers);
  integrand := λ _ _ '(tau, l1, l2),
    if (tau =? 10)%Z then Err (NameError "_spkv_") else Ok (100 * tau + 10 * l1 + l2)%Z;
  completion_order := λ work, reverse (seq 0 (length work));
  rgi_accepts := λ _ _ _ _, true;
  as_points := as_points (Libraries := Sample.integers);
  rgi_linear := rgi_linear (Libraries := Sample.integers);
  np_block := np_block (Libraries := Sample.integers)
|}.

Definition no_smoothness : GPConfig Z := Sample.config 1 [].

(** Libraries over the reals for a grid of one point: the workers complete
    in the order of the list and the interpolator accepts the grid. *)
Definition over_reals : Libraries R := {|
  Fsub := Rminus;
  Fmul := Rmult;
  Fleb := λ a b, if Rle_dec a b then true else false;
  F_of_Z := IZR;
  linspace := λ a b n, match n with 0 => [] | 1 => [a] | _ => [a; b] end;
  integrand := λ _ _ _, Err (LibraryError "quad");
  completion_order := λ work, seq 0 (length work);
  rgi_accepts := λ _ _ _ _, true;
  as_points := λ _ _, None;
  rgi_linear := λ _ _ _, 0%R;
  np_block := λ _, None
|}.

Definition no_sections : GPConfig Z :=
  {| models := []; n_Tasks := 1; self_scale := false; nus := [Sample.SE];
     n_points := 2; Task := ∅ |}.

End Cases.

(** * marcia / database.py : the class [Data]

    The constructor, the dispatch [get_data], the block-diagonal assembly
    [__block_matrix__] and [__call__]. The seven getters read files and are
    parameters; two-dimensional numpy arrays carry their shape. *)
Module Database.

Inductive raised : Type :=
  | Assertion (msg : string)       (* a failed [assert] *)
  | Type_error (msg : string)      (* the [raise TypeError] of [__init__] *)
  | Value_error (msg : string)     (* the [raise ValueError] of [get_data] *)
  | Getter_failed (what : string)  (* raised inside one of the getters *)
  | Numpy_error (what : string).   (* raised inside numpy *)

Inductive outcome (A : Type) : Type :=
  | Returned (a : A)
  | Raised (e : raised).
Arguments Returned {A} a.
Arguments Raised {A} e.

Definition and_then {A B} (o : outcome A) (k : A → outcome B) : outcome B :=
  match o with Returned a => k a | Raised e => Raised e end.

(** An element of the list given to [Data]: a string, or anything else
    (with its text in an f-string). *)
Inductive item : Type :=
  | Name (s : string)
  | NotAName (text : string).

(** The argument of [Data]: a string, a list, or anything else. *)
Inductive argument : Type :=
  | OneName (s : string)
  | Names (l : list item)
  | Neither (text : string).

Definition datalist : list string := ["CC"; "BAO"; "GR"; "Lya"; "GRB"; "SNE"; "QSA"].

(** [f'{datalist}'] *)
Definition datalist_text : string := "['CC', 'BAO', 'GR', 'Lya', 'GRB', 'SNE', 'QSA']".

Definition item_text (d : item) : string :=
  match d with Name s => s | NotAName t => t end.

(** [d in datalist] *)
Definition in_datalist (d : item) : bool :=
  match d with Name s => bool_decide (s ∈ datalist) | NotAName _ => false end.

(** [for d in data: assert d in datalist, ...] *)
Fixpoint assert_all (l : list item) : outcome unit :=
  match l with
  | [] => Returned tt
  | d :: l' =>
      if in_datalist d then assert_all l'
      else Raised (Assertion (item_text d +:+ " is not in " +:+ datalist_text))
  end.

(** [Data.__init__]: what [self.data] is bound to. *)
Definition __init__ (data : argument) : outcome (list item) :=
  match data with
  | OneName s =>
      if in_datalist (Name s) then Returned [Name s]
      else Raised (Assertion (s +:+ " is not in " +:+ datalist_text))
  | Names l => and_then (assert_all l) (λ _, Returned l)
  | Neither t => Raised (Type_error (t +:+ " is not a valid type"))
  end.

Section WithNumbers.
Context {F : Type}.

(** A two-dimensional array with its shape. *)
Record ndarray : Type := { shape0 : nat; shape1 : nat; cells : list (list F) }.

Definition well_shaped (a : ndarray) : Prop :=
  length (cells a) = shape0 a ∧ Forall (λ line, length line = shape1 a) (cells a).

Definition dataset : Type := list F * list F * ndarray.

(** The getters, which load files: each returns the triple (x, y, covar) or
    fails. The float zero of [np.zeros]. *)
Class Getters : Type := {
  zero : F;
  get_cosmic_clocks : string + dataset;
  get_bao : string + dataset;
  get_growth : F → string + dataset;
  get_Lya : string + dataset;
  get_GRB : F → F → F → string + dataset;
  get_SNE : string + dataset;
  get_QSA : string + dataset
}.
Context {G : Getters}.

Definition from_getter (r : string + dataset) : outcome dataset :=
  match r with inr t => Returned t | inl what => Raised (Getter_failed what) end.

(** [choose == 'CC'] *)
Definition is_name (choose : item) (s : string) : bool :=
  match choose with Name t => bool_decide (t = s) | NotAName _ => false end.

(** [get_data]: the assertion on the keys of [paramdict] and the
    subscripts that follow it are one lookup each. *)
Definition get_data (choose : item) (paramdict : gmap string F) : outcome dataset :=
  if is_name choose "CC" then from_getter get_cosmic_clocks
  else if is_name choose "BAO" then from_getter get_bao
  else if is_name choose "GR" then
    match paramdict !! "file" with
    | Some file => from_getter (get_growth file)
    | None => Raised (Assertion "file no must be in paramdict")
    end
  else if is_name choose "Lya" then from_getter get_Lya
  else if is_name choose "GRB" then
    match paramdict !! "Lambda", paramdict !! "b", paramdict !! "sigma_sys" with
    | Some Lambda, Some b, Some sigma_sys => from_getter (get_GRB Lambda b sigma_sys)
    | _, _, _ => Raised (Assertion "Lambda, b and sigma_sys must be in paramdict")
    end
  else if is_name choose "SNE" then from_getter get_SNE
  else if is_name choose "QSA" then from_getter get_QSA
  else Raised (Value_error (item_text choose +:+ " is not a valid data set")).

(** [result[row_start:row_end, col_start:col_end] = matrix] on a square
    [result] of side [size]: the two slices are clipped to the array, the
    value must have the shape of the target or a length of 1 along an axis
    where it differs, and is written line by line. *)
Definition assign_block (size row_start col_start : nat) (matrix : ndarray)
    (result : list (list F)) : outcome (list (list F)) :=
  let row_end := row_start + shape0 matrix in
  let col_end := col_start + shape1 matrix in
  let r0 := row_start `min` size in
  let c0 := col_start `min` size in
  let tr := row_end `min` size - r0 in
  let tc := col_end `min` size - c0 in
  if (bool_decide (tr = shape0 matrix) || bool_decide (shape0 matrix = 1))
     && (bool_decide (tc = shape1 matrix) || bool_decide (shape1 matrix = 1))
  then
    Returned
      (take r0 result
       ++ zip_with (λ value line, take c0 line ++ take tc value ++ drop (c0 + tc) line)
            (take tr (cells matrix)) (take tr (drop r0 result))
       ++ drop (r0 + tr) result)%list
  else Raised (Numpy_error "could not broadcast input array").

(** The loop of [__block_matrix__]. *)
Fixpoint fill_blocks (size row_start col_start : nat) (matrices : list ndarray)
    (result : list (list F)) : outcome (list (list F)) :=
  match matrices with
  | [] => Returned result
  | matrix :: rest =>
      and_then (assign_block size row_start col_start matrix result) (λ result',
        fill_blocks size (row_start + shape0 matrix) (col_start + shape1 matrix)
          rest result')
  end.

Definition __block_matrix__ (matrices : list ndarray) : outcome ndarray :=
  let size := sum_list (shape0 <$> matrices) in
  let result := replicate size (replicate size zero) in
  and_then (fill_blocks size 0 0 matrices result) (λ result',
    Returned {| shape0 := size; shape1 := size; cells := result' |}).

(** The block-diagonal matrix in plain words: the lines of the first block,
    each followed by zeros, then the lines of the block-diagonal matrix of
    the other blocks, each preceded by zeros. *)
Fixpoint block_diagonal (matrices : list ndarray) : list (list F) :=
  match matrices with
  | [] => []
  | matrix :: rest =>
      (map (λ line, line ++ replicate (sum_list (shape0 <$> rest)) zero) (cells matrix)
       ++ map (λ line, replicate (shape1 matrix) zero ++ line) (block_diagonal rest))%list
  end.

(** [np.concatenate] of a list of one-dimensional arrays. *)
Definition np_concatenate (arrays : list (list F)) : outcome (list F) :=
  match arrays with
  | [] => Raised (Numpy_error "need at least one array to concatenate")
  | _ => Returned (concat arrays)
  end.

(** The loop of [__call__]: the triples of the data sets, in order. *)
Fixpoint collect (data : list item) (paramdict : gmap string F) : outcome (list dataset) :=
  match data with
  | [] => Returned []
  | d :: rest =>
      and_then (get_data d paramdict) (λ t,
      and_then (collect rest paramdict) (λ ts, Returned (t :: ts)))
  end.

Definition __call__ (self_data : list item) (paramdict : gmap string F)
    : outcome (list F * list F * ndarray) :=
  and_then (collect self_data paramdict) (λ ts,
  and_then (np_concatenate (map (λ t, t.1.1) ts)) (λ x,
  and_then (np_concatenate (map (λ t, t.1.2) ts)) (λ y,
  and_then (__block_matrix__ (map (λ t, t.2) ts)) (λ covar,
  Returned (x, y, covar))))).

(** What four of the getters assert before they return:
    [len(x) == len(y) == covar.shape[0] == covar.shape[1]]. *)
Definition consistent (t : dataset) : Prop :=
  let '(x, y, covar) := t in
  well_shaped covar ∧ length x = length y ∧ length y = shape0 covar ∧
  shape0 covar = shape1 covar.

End WithNumbers.

Arguments ndarray F : clear implicits.
Arguments dataset F : clear implicits.
Arguments Getters F : clear implicits.

(** Getters over the integers that return two small data sets. *)
Definition diagonal2 (a b : Z) : ndarray Z :=
  {| shape0 := 2; shape1 := 2; cells := [[a; 0]; [0; b]]%Z |}.

Definition small_getters : Getters Z := {|
  zero := 0%Z;
  get_cosmic_clocks := inr ([1; 2]%Z, [10; 20]%Z, diagonal2 4 9);
  get_bao := inr ([3]%Z, [30]%Z, {| shape0 := 1; shape1 := 1; cells := [[5%Z]] |});
  get_growth := λ _, inl "GR.txt";
  get_Lya := inl "DmH.txt";
  get_GRB := λ _ _ _, inl "GRB.txt";
  get_SNE := inl "SNE.txt";
  get_QSA := inl "DL_all_short.txt"
|}.

End Database.

(** * Properties *)

(** ** Basis functions *)

Section BasisFacts.
Import Basis.
Context {S : SpecialFunctions}.

Lemma helper_names_unbound :
  ("_spkv_" ∉ module_globals) ∧ ("_spgamma_" ∉ module_globals) ∧
  ("_spkv_" ∈ class_attributes) ∧ ("_spgamma_" ∈ class_attributes).
Proof.
  repeat split; unfold module_globals, class_attributes;
    rewrite ?list_elem_of_In; simpl; intuition congruence.
Qed.

Lemma gMdef_branch_sentinel : gMdef_branch (NuStr "0.0") = SquaredExponential.
Proof. reflexivity. Qed.



(** C7. With the squared-exponential sentinel ['0.0'] as smoothness, for
    every lag [tau] and every length-scale [l > 0], [gMdef] returns
    exp(-tau^2 / (2 l^2)). *)
Theorem gMdef_squared_exponential (tau l : R) :
  (0 < l)%R →
  gMdef tau (NuStr "0.0") l = Ok (KScalar (exp (- (tau ^ 2 / (2 * l ^ 2))))).
Proof.
  intros _. unfold gMdef. rewrite gMdef_branch_sentinel.
  do 3 f_equal. rewrite pow2_abs. unfold Rdiv. ring.
Qed.


Lemma gdMdef_number (tau l : R) (q : Q) :
  gdMdef tau (NuNum q) l = Err (NameError "_spgamma_").
Proof. reflexivity. Qed.

Lemma gdMdef_string (tau l : R) (s : string) :
  gdMdef tau (NuStr s) l
  = Err (TypeError "can't multiply sequence by non-int of type 'float'").
Proof. reflexivity. Qed.

Lemma gMdef_Matern52 (tau l : R) (nu : Nu) (k : kout) :
  gMdef_branch nu = Matern52 → kernel_gMdef tau l nu = Ok k →
  gMdef tau nu l = Err (NameError "_spkv_").
Proof. intros Hb Hk. unfold gMdef. rewrite Hb, Hk. reflexivity. Qed.

Lemma gMdef_GeneralMatern (tau l : R) (nu : Nu) (a b c : R) :
  gMdef_branch nu = GeneralMatern → kernel_gMdef tau l nu = Ok (KTriple a b c) →
  gMdef tau nu l = Err (NameError "_spgamma_").
Proof.
  intros Hb Hk. unfold gMdef, gMdef_general. rewrite Hb, Hk. reflexivity.
Qed.

Lemma gMdef_returns (tau l : R) (nu : Nu) (v : kout) :
  gMdef tau nu l = Ok v →
  gMdef_branch nu = SquaredExponential ∨ gMdef_branch nu = Matern72.
Proof.
  unfold gMdef, gMdef_general.
  destruct (gMdef_branch nu); [by left| |by right|].
  - destruct (kernel_gMdef tau l nu); discriminate.
  - destruct (kernel_gMdef tau l nu) as [[x|a b c]|]; discriminate.
Qed.

(** C9, as amended. The names [_spkv_] and [_spgamma_] are bound in the
    class body only, not at module level. So [gMdef] with a smoothness of
    5/2 raises NameError once the backend call has returned, and so does the
    general branch once the backend has returned a triple; [gdMdef] raises
    NameError for every numeric smoothness and TypeError (on its first line)
    for a string one such as the sentinel; [gdMdef] never returns a value,
    and [gMdef] can return one in the squared-exponential and 7/2 branches
    only. *)
Theorem helper_names_raise (tau l : R) (nu : Nu) :
  (("_spkv_" ∉ module_globals) ∧ ("_spgamma_" ∉ module_globals) ∧
   ("_spkv_" ∈ class_attributes) ∧ ("_spgamma_" ∈ class_attributes)) ∧
  (gMdef_branch nu = Matern52 → ∀ k, kernel_gMdef tau l nu = Ok k →
     gMdef tau nu l = Err (NameError "_spkv_")) ∧
  (gMdef_branch nu = GeneralMatern → ∀ a b c, kernel_gMdef tau l nu = Ok (KTriple a b c) →
     gMdef tau nu l = Err (NameError "_spgamma_")) ∧
  (∀ q, gdMdef tau (NuNum q) l = Err (NameError "_spgamma_")) ∧
  (∀ s, ∃ msg, gdMdef tau (NuStr s) l = Err (TypeError msg)) ∧
  (∀ v, gdMdef tau nu l ≠ Ok v) ∧
  (∀ v, gMdef tau nu l = Ok v →
     gMdef_branch nu = SquaredExponential ∨ gMdef_branch nu = Matern72).
Proof.
  split; [exact helper_names_unbound|].
  split; [intros Hb k Hk; by eapply gMdef_Matern52|].
  split; [intros Hb a b c Hk; by eapply gMdef_GeneralMatern|].
  split; [intros q; apply gdMdef_number|].
  split; [intros s; eexists; apply gdMdef_string|].
  split; [|intros v; apply gMdef_returns].
  intros v. destruct nu; [rewrite gdMdef_string|rewrite gdMdef_number]; discriminate.
Qed.

End BasisFacts.

(** C7 at lag 1 and length-scale 1. *)
Lemma gMdef_squared_exponential_witness :
  (0 < 1)%R ∧
  Basis.gMdef (S := Sample.flat_backend) 1 (NuStr "0.0") 1
  = Ok (Basis.KScalar (exp (- (1 ^ 2 / (2 * 1 ^ 2))))).
Proof.
  split; [exact Rlt_0_1|].
  apply (gMdef_squared_exponential (S := Sample.flat_backend) 1 1). exact Rlt_0_1.
Defined.


(** C9 as stated fails: with the sentinel string as smoothness, [gdMdef]
    raises TypeError on its first line, not NameError. *)
Lemma gdMdef_sentinel_type_error :
  Basis.gdMdef (S := Sample.flat_backend) 1 (NuStr "0.0") 1
  = Err (TypeError "can't multiply sequence by non-int of type 'float'")
  ∧ ¬ (∃ name, Basis.gdMdef (S := Sample.flat_backend) 1 (NuStr "0.0") 1
               = Err (NameError name)).
Proof. split; [reflexivity|]. intros [name H]. discriminate H. Qed.

(** C9 as amended, at the smoothness 5/2 and at the number 0.0. *)
Lemma helper_names_raise_witness :
  Basis.gMdef (S := Sample.flat_backend) 1 (NuNum (5 # 2)) 1 = Err (NameError "_spkv_") ∧
  Basis.gMdef (S := Sample.flat_backend) 1 (NuNum 0) 1 = Err (NameError "_spgamma_").
Proof.
  split.
  - destruct (helper_names_raise (S := Sample.flat_backend) 1 1 (NuNum (5 # 2)))
      as (_ & H & _).
    apply (H eq_refl (Basis.KScalar 1)). reflexivity.
  - destruct (helper_names_raise (S := Sample.flat_backend) 1 1 (NuNum 0))
      as (_ & _ & H & _).
    apply (H eq_refl 1%R 1%R 1%R). reflexivity.
Defined.

(** ** The pool and the dense array *)

Section Pool.
Context {A B : Type} (f : A → result B) (xs : list A).

Lemma sequential_map_Forall2 (l : list A) (ys : list B) :
  sequential_map f l = Ok ys ↔ Forall2 (λ x y, f x = Ok y) l ys.
Proof.
  revert ys. induction l as [|x l IH]; intros ys; simpl.
  - split; [intros [= <-]; constructor|by intros ->%Forall2_nil_inv_l].
  - split.
    + destruct (f x) as [b|e] eqn:Hx; simpl; [|discriminate].
      destruct (sequential_map f l) as [bs|e] eqn:Hl; simpl; [|discriminate].
      intros [= <-]. constructor; [done|]. by apply IH.
    + intros (b & bs & Hx & Hl & ->)%Forall2_cons_inv_l.
      rewrite Hx. simpl. apply IH in Hl. rewrite Hl. reflexivity.
Qed.

Lemma Forall2_Ok_map (l : list A) (ys : list B) :
  Forall2 (λ x y, f x = Ok y) l ys → map Ok ys = map f l.
Proof. induction 1; simpl; congruence. Qed.

(** The slots and the first failure after the items of [order] completed. *)
Lemma pool_fold_spec (order : list nat) :
  let st := foldl (pool_step f xs) (replicate (length xs) None, None) order in
  length st.1 = length xs ∧
  (∀ i b, st.1 !! i = Some (Some b) ↔
          i ∈ order ∧ ∃ x, xs !! i = Some x ∧ f x = Ok b) ∧
  (st.2 = None ↔ ∀ i x, i ∈ order → xs !! i = Some x → ∃ b, f x = Ok b).
Proof.
  induction order as [|i order IH] using rev_ind; simpl.
  - split; [by rewrite length_replicate|]. split.
    + intros i b. split.
      * intros [[=] _]%lookup_replicate.
      * intros [Hi _]. by apply elem_of_nil in Hi.
    + split; [|done]. intros _ i x Hi. by apply elem_of_nil in Hi.
  - rewrite foldl_snoc.
    destruct (foldl (pool_step f xs) (replicate (length xs) None, None) order)
      as [buf failed]. simpl in IH. destruct IH as (Hlen & Hbuf & Hfail).
    unfold pool_step. simpl.
    destruct (xs !! i) as [x|] eqn:Hi; simpl.
    + destruct (f x) as [b|e] eqn:Hx; simpl.
      * split; [by rewrite length_insert|]. split.
        -- intros j c. rewrite list_lookup_insert, elem_of_app, list_elem_of_singleton.
           apply lookup_lt_Some in Hi as Hlt.
           destruct (decide (i = j)) as [<-|Hne].
           ++ rewrite decide_True by (split; [done|lia]).
              split.
              ** intros [= <-]. eauto.
              ** intros [_ (x' & Hx' & Hc)]. congruence.
           ++ rewrite decide_False by (intros []; done). rewrite Hbuf.
              split; [intros []; by eauto|].
              intros [[?|?] ?]; [done|congruence].
        -- rewrite Hfail. split.
           ++ intros H j y [Hj| ->%list_elem_of_singleton]%elem_of_app Hy; [by eauto|].
              assert (y = x) as -> by congruence. eauto.
           ++ intros H j y Hj. apply H. apply elem_of_app. by left.
      * split; [done|]. split.
        -- intros j c. rewrite Hbuf, elem_of_app, list_elem_of_singleton.
           split; [intros []; by eauto|].
           intros [[?| ->] (x' & Hx' & Hc)]; [by eauto|congruence].
        -- split; [by destruct failed|].
           intros H. destruct (H i x) as [b Hb]; [|done|congruence].
           apply elem_of_app. right. by apply list_elem_of_singleton.
    + split; [done|]. split.
      * intros j c. rewrite Hbuf, elem_of_app, list_elem_of_singleton.
        split; [intros []; by eauto|].
        intros [[?| ->] (x' & Hx' & Hc)]; [by eauto|congruence].
      * rewrite Hfail. split.
        -- intros H j y [Hj| ->%list_elem_of_singleton]%elem_of_app Hy; [by eauto|].
           congruence.
        -- intros H j y Hj. apply H. apply elem_of_app. by left.
Qed.

(** Whatever the order of completion, [Pool.map] returns a list exactly when
    sequential enumeration does, and the same one. *)
Lemma pool_map_sequential (order : list nat) (ys : list B) :
  order ≡ₚ seq 0 (length xs) →
  pool_map order f xs = Ok ys ↔ sequential_map f xs = Ok ys.
Proof.
  intros Hperm.
  assert (Hall : ∀ i, i < length xs → i ∈ order).
  { intros i Hi. rewrite Hperm. apply elem_of_seq. lia. }
  rewrite sequential_map_Forall2. unfold pool_map.
  destruct (pool_fold_spec order) as (Hlen & Hbuf & Hfail).
  destruct (foldl (pool_step f xs) (replicate (length xs) None, None) order)
    as [buf failed]. simpl in *.
  split.
  - destruct failed as [e|]; [discriminate|].
    destruct (mapM (λ slot, slot) buf) as [zs|] eqn:Hm; simpl; [|discriminate].
    intros [= ->]. apply mapM_Some in Hm.
    apply Forall2_same_length_lookup_2.
    { apply Forall2_length in Hm. lia. }
    intros i x y Hx Hy.
    destruct (Forall2_lookup_r _ _ _ _ _ Hm Hy) as (o & Ho & ->).
    apply Hbuf in Ho as (_ & x' & Hx' & Hfx). congruence.
  - intros HF.
    assert (Hnone : failed = None).
    { apply Hfail. intros i x _ Hx.
      destruct (Forall2_lookup_l _ _ _ _ _ HF Hx) as (y & _ & Hy). eauto. }
    rewrite Hnone.
    assert (Hm : mapM (λ slot, slot) buf = Some ys).
    { apply mapM_Some. apply Forall2_same_length_lookup_2.
      { apply Forall2_length in HF. lia. }
      intros i o y Ho Hy.
      assert (Hi : i < length xs) by (rewrite <-Hlen; by eapply lookup_lt_Some).
      destruct (lookup_lt_is_Some_2 xs i Hi) as [x Hx].
      destruct (Forall2_lookup_l _ _ _ _ _ HF Hx) as (y' & Hy' & Hfx).
      assert (y' = y) as -> by congruence.
      assert (Hs : buf !! i = Some (Some y)) by (apply Hbuf; eauto).
      congruence. }
    by rewrite Hm.
Qed.

End Pool.

Section Reshape.
Context {A B : Type}.

Lemma bind_concat_map (g : A → list B) (l : list A) : l ≫= g = concat (map g l).
Proof. induction l as [|x l IH]; simpl; [done|]. by rewrite <-IH. Qed.

Lemma chunk_concat (n : nat) (rows : list (list A)) :
  Forall (λ r, length r = n) rows → chunk (length rows) n (concat rows) = rows.
Proof.
  induction 1 as [|r rows Hr _ IH]; simpl; [done|].
  rewrite take_app_length', drop_app_length' by done. by rewrite IH.
Qed.

Lemma chunk_map (g : A → B) (k n : nat) (l : list A) :
  chunk k n (map g l) = map (map g) (chunk k n l).
Proof.
  revert l. induction k as [|k IH]; intros l; simpl; [done|].
  by rewrite firstn_map, skipn_map, IH.
Qed.

Lemma map_concat_map {C} (g : B → C) (h : A → list B) (l : list A) :
  map g (concat (map h l)) = concat (map (λ x, map g (h x)) l).
Proof.
  induction l as [|x l IH]; simpl; [done|]. by rewrite map_app, IH.
Qed.

End Reshape.

Lemma product3_concat {A} (xs ys zs : list A) :
  product3 xs ys zs
  = concat (map (λ x, concat (map (λ y, map (λ z, (x, y, z)) zs) ys)) xs).
Proof.
  unfold product3. rewrite bind_concat_map. f_equal.
  apply List.map_ext. intros x. rewrite bind_concat_map. f_equal.
Qed.

Lemma length_product_row {A B} (f : A * A * A → B) (t : A) (ys zs : list A) :
  length (concat (map (λ y, map (λ z, f (t, y, z)) zs) ys)) = length ys * length zs.
Proof.
  induction ys as [|y ys IH]; simpl; [done|].
  by rewrite length_app, length_map, IH.
Qed.

(** Cutting the row-major list of the integrals back into a dense array
    puts the integral of (tau[a], l2[b], l1[c]) at entry (a, b, c). *)
Lemma reshape3_product3 {A B} (f : A * A * A → B) (tau l2 l1 : list A) :
  reshape3 (length tau) (length l2) (length l1) (map f (product3 tau l2 l1))
  = enumerated_grid f tau l2 l1.
Proof.
  unfold reshape3, enumerated_grid. rewrite product3_concat, map_concat_map.
  rewrite <-(length_map (λ x, map f (concat (map (λ y, map (λ z, (x, y, z)) l1) l2))) tau)
    at 1.
  rewrite chunk_concat.
  - rewrite map_map. apply List.map_ext. intros t.
    rewrite map_concat_map.
    rewrite <-(length_map (λ y, map f (map (λ z, (t, y, z)) l1)) l2) at 1.
    rewrite chunk_concat.
    + apply List.map_ext. intros y. by rewrite map_map.
    + apply Forall_forall. intros r Hr.
      apply list_elem_of_In, in_map_iff in Hr as (y & <- & _).
      by rewrite !length_map.
  - apply Forall_forall. intros r Hr.
    apply list_elem_of_In, in_map_iff in Hr as (t & <- & _).
    rewrite map_concat_map.
    erewrite List.map_ext; [apply (length_product_row f)|].
    intros y. by rewrite map_map.
Qed.

Lemma lookup_map {A B} (g : A → B) (l : list A) (i : nat) :
  map g l !! i = g <$> l !! i.
Proof. exact (list_lookup_fmap g l i). Qed.

Lemma grid_entry {A B} (f : A * A * A → result B) (tau l2 l1 : list A)
    (vals : list (list (list B))) (a b c : nat) (ta tb tc : A) :
  map (map (map Ok)) vals = enumerated_grid f tau l2 l1 →
  tau !! a = Some ta → l2 !! b = Some tb → l1 !! c = Some tc →
  ∃ plane line v, vals !! a = Some plane ∧ plane !! b = Some line ∧
                  line !! c = Some v ∧ f (ta, tb, tc) = Ok v.
Proof.
  intros Heq Ha Hb Hc. unfold enumerated_grid in Heq.
  apply (f_equal (λ l, l !! a)) in Heq. rewrite !lookup_map, Ha in Heq.
  destruct (vals !! a) as [plane|] eqn:Hp; [|discriminate]. simpl in Heq.
  injection Heq as Heq.
  apply (f_equal (λ l, l !! b)) in Heq. rewrite !lookup_map, Hb in Heq.
  destruct (plane !! b) as [line|] eqn:Hl; [|discriminate]. simpl in Heq.
  injection Heq as Heq.
  apply (f_equal (λ l, l !! c)) in Heq. rewrite !lookup_map, Hc in Heq.
  destruct (line !! c) as [v|] eqn:Hv; [|discriminate]. simpl in Heq.
  injection Heq as Heq. eauto 10.
Qed.

(** ** The state and error monad *)

Section AssemblerFacts.
Context {F : Type} {L : Libraries F}.
Implicit Types (s : Kernels F) (MTGP : GPConfig F) (data : list (list F)).

Lemma of_option_Ok {A} (o : option A) (e : exn) (a : A) :
  of_option o e = Ok a → o = Some a.
Proof. destruct o; simpl; congruence. Qed.

Lemma of_option_Err {A} (o : option A) (e e' : exn) :
  of_option o e = Err e' → o = None ∧ e' = e.
Proof. destruct o; simpl; [discriminate|]. by intros [= ->]. Qed.

Ltac of_option_inv :=
  repeat match goal with
    | H : of_option _ _ = Ok _ |- _ => apply of_option_Ok in H
    | H : of_option _ _ = Err _ |- _ => apply of_option_Err in H as [? ->]
    end.

Lemma bind_Ok {A B} (m : M F A) (k : A → M F B) s a s' :
  m s = (Ok a, s') → bind m k s = k a s'.
Proof. intros H. unfold bind. by rewrite H. Qed.

Lemma bind_Err {A B} (m : M F A) (k : A → M F B) s e s' :
  m s = (Err e, s') → bind m k s = (Err e, s').
Proof. intros H. unfold bind. by rewrite H. Qed.

Lemma for_each_cons {A} (x : A) xs (body : A → M F unit) s :
  for_each (x :: xs) body s = bind (body x) (λ _, for_each xs body) s.
Proof. reflexivity. Qed.

Lemma never_ValueError_ret {A} (a : A) : never_ValueError (F := F) (ret a).
Proof. intros s msg. discriminate. Qed.

Lemma never_ValueError_get {A} (field : Kernels F → A) : never_ValueError (get field).
Proof. intros s msg. discriminate. Qed.

Lemma never_ValueError_modify (f : Kernels F → Kernels F) : never_ValueError (modify f).
Proof. intros s msg. discriminate. Qed.

Lemma never_ValueError_bind {A B} (m : M F A) (k : A → M F B) :
  never_ValueError m → (∀ a, never_ValueError (k a)) → never_ValueError (bind m k).
Proof.
  intros Hm Hk s msg. unfold bind. specialize (Hm s msg).
  destruct (m s) as [[a|e] s1]; simpl in *.
  - apply Hk.
  - intros [= ->]. by apply Hm.
Qed.

Lemma never_ValueError_item {A} (l : list A) (i : nat) : never_ValueError (F := F) (item l i).
Proof. intros s msg. unfold item, lift. simpl. by destruct (l !! i). Qed.

Lemma never_ValueError_subscript {A} (d : gmap string A) (key : string) :
  never_ValueError (F := F) (subscript d key).
Proof. intros s msg. unfold subscript, lift. simpl. by destruct (d !! key). Qed.

Lemma never_ValueError_for_each {A} (xs : list A) (body : A → M F unit) :
  (∀ x, never_ValueError (body x)) → never_ValueError (for_each xs body).
Proof.
  intros Hb. induction xs as [|x xs IH]; simpl.
  - apply never_ValueError_ret.
  - apply never_ValueError_bind; [apply Hb|intros _; exact IH].
Qed.

Lemma pool_map_not_ValueError {A B} order (f : A → result B) xs msg :
  pool_map order f xs ≠ Err (ValueError msg).
Proof.
  unfold pool_map. destruct (foldl _ _ _) as [buf [e|]]; simpl; [discriminate|].
  by destruct (mapM _ buf).
Qed.

Lemma never_ValueError_KcMM (l1 l2 tau : list F) : never_ValueError (KcMM l1 l2 tau).
Proof.
  unfold KcMM, pool_map_integrand.
  repeat first
    [ apply never_ValueError_bind; [|intros ?]
    | apply never_ValueError_get | apply never_ValueError_modify ].
  - intros s msg. apply pool_map_not_ValueError.
  - intros s msg. unfold lift, new_RegularGridInterpolator. simpl.
    by destruct (rgi_accepts _ _ _ _).
Qed.

Lemma never_ValueError_pair_body MTGP i j : never_ValueError (pair_body MTGP i j).
Proof.
  unfold pair_body.
  repeat first
    [ apply never_ValueError_KcMM
    | apply never_ValueError_item | apply never_ValueError_subscript
    | apply never_ValueError_get | apply never_ValueError_modify
    | apply never_ValueError_bind; [|intros ?]
    | case_bool_decide ].
Qed.

Lemma never_ValueError_pair_loop MTGP : never_ValueError (pair_loop MTGP).
Proof.
  unfold pair_loop, row.
  apply never_ValueError_bind; [apply never_ValueError_get|intros n].
  apply never_ValueError_for_each. intros i.
  apply never_ValueError_bind; [apply never_ValueError_get|intros m].
  apply never_ValueError_for_each. intros j. apply never_ValueError_pair_body.
Qed.

Lemma construct_mismatch data MTGP :
  length data ≠ n_Tasks MTGP →
  construct data MTGP
  = (Err (ValueError (length_mismatch (length data) (n_Tasks MTGP))),
     set_config MTGP data blank).
Proof.
  intros Hne. unfold construct, __init__, bind, modify, get, raise. simpl.
  rewrite bool_decide_eq_false_2 by done. reflexivity.
Qed.

Lemma construct_match data MTGP :
  length data = n_Tasks MTGP →
  construct data MTGP = pair_loop MTGP (prepared data MTGP).
Proof.
  intros Heq. unfold construct, __init__, bind, modify, get, raise. simpl.
  rewrite bool_decide_eq_true_2 by done. reflexivity.
Qed.

(** ** The grid builder *)

Lemma KcMM_run s (n1 n2 : Nu) (l1 l2 tau : list F) :
  nu1 s = Some n1 → nu2 s = Some n2 →
  KcMM l1 l2 tau s
  = match pool_map (completion_order (product3 tau l2 l1)) (integrand n1 n2)
            (product3 tau l2 l1) with
    | Ok ys =>
        (new_RegularGridInterpolator (tau, l2, l1)
           (reshape3 (length tau) (length l2) (length l1) ys) false None,
         log_dispatch (product3 tau l2 l1) s)
    | Err e => (Err e, log_dispatch (product3 tau l2 l1) s)
    end.
Proof.
  intros H1 H2. unfold KcMM, pool_map_integrand, bind, get, modify, lift.
  simpl. rewrite H1, H2. simpl.
  change (λ p, result_bind (λ a, result_bind (λ b, integrand a b p) (Ok n2)) (Ok n1))
    with (integrand n1 n2).
  reflexivity.
Qed.

Lemma KcMM_Ok_flags s (l1 l2 tau : list F) g s' :
  KcMM l1 l2 tau s = (Ok g, s') →
  grid g = (tau, l2, l1) ∧ bounds_error g = false ∧ fill_value g = None.
Proof.
  unfold KcMM, pool_map_integrand, bind, get, modify, lift,
    new_RegularGridInterpolator. simpl. intros Hrun.
  by repeat (case_match; simplify_eq/=).
Qed.

(** C6. The dense array that [KcMM] builds through the pool is the one of
    sequential enumeration, whatever the order in which the workers
    complete: the pool returns a list exactly when sequential enumeration
    does, and the same one, so two builds return the same list; entry
    (a, b, c) of the array is the integral at
    (tau[a], l2[b], l1[c]); and the build returns that array whenever every
    integral is computed and scipy accepts the grid. *)
Theorem KcMM_row_major s (n1 n2 : Nu) (l1 l2 tau : list F) :
  nu1 s = Some n1 → nu2 s = Some n2 →
  completion_order (product3 tau l2 l1) ≡ₚ seq 0 (length (product3 tau l2 l1)) →
  (∀ order ys, order ≡ₚ seq 0 (length (product3 tau l2 l1)) →
     pool_map order (integrand n1 n2) (product3 tau l2 l1) = Ok ys ↔
     sequential_map (integrand n1 n2) (product3 tau l2 l1) = Ok ys) ∧
  (∀ order1 order2 ys1 ys2,
     order1 ≡ₚ seq 0 (length (product3 tau l2 l1)) →
     order2 ≡ₚ seq 0 (length (product3 tau l2 l1)) →
     pool_map order1 (integrand n1 n2) (product3 tau l2 l1) = Ok ys1 →
     pool_map order2 (integrand n1 n2) (product3 tau l2 l1) = Ok ys2 →
     ys1 = ys2) ∧
  (∀ g s', KcMM l1 l2 tau s = (Ok g, s') →
     map (map (map Ok)) (values g) = enumerated_grid (integrand n1 n2) tau l2 l1 ∧
     ∀ a b c ta tb tc,
       tau !! a = Some ta → l2 !! b = Some tb → l1 !! c = Some tc →
       ∃ plane line v, values g !! a = Some plane ∧ plane !! b = Some line ∧
                       line !! c = Some v ∧ integrand n1 n2 (ta, tb, tc) = Ok v) ∧
  (∀ ys, sequential_map (integrand n1 n2) (product3 tau l2 l1) = Ok ys →
     rgi_accepts tau l2 l1 (reshape3 (length tau) (length l2) (length l1) ys) = true →
     ∃ g, KcMM l1 l2 tau s = (Ok g, log_dispatch (product3 tau l2 l1) s) ∧
          values g = reshape3 (length tau) (length l2) (length l1) ys).
Proof.
  intros H1 H2 Hperm.
  assert (Hgrid : ∀ ys,
    sequential_map (integrand n1 n2) (product3 tau l2 l1) = Ok ys →
    map (map (map Ok)) (reshape3 (length tau) (length l2) (length l1) ys)
    = enumerated_grid (integrand n1 n2) tau l2 l1).
  { intros ys Hys. apply sequential_map_Forall2, Forall2_Ok_map in Hys.
    rewrite <-reshape3_product3, <-Hys. unfold reshape3.
    rewrite map_map, chunk_map, map_map. apply List.map_ext. intros r.
    by rewrite chunk_map. }
  split; [intros order ys Ho; by apply pool_map_sequential|].
  split.
  { intros o1 o2 ys1 ys2 Ho1 Ho2 Hp1 Hp2.
    apply pool_map_sequential in Hp1, Hp2; [|done..]. congruence. }
  split.
  - intros g s'. rewrite (KcMM_run _ _ _ _ _ _ H1 H2).
    destruct (pool_map _ _ _) as [ys|e] eqn:Hpool; [|discriminate].
    apply pool_map_sequential in Hpool; [|done].
    unfold new_RegularGridInterpolator.
    destruct (rgi_accepts _ _ _ _); [|discriminate].
    intros [= <- <-]. simpl. split; [by apply Hgrid|].
    intros a b c ta tb tc. apply grid_entry. by apply Hgrid.
  - intros ys Hys Hacc. rewrite (KcMM_run _ _ _ _ _ _ H1 H2).
    apply (pool_map_sequential _ _ _ _ Hperm) in Hys. rewrite Hys.
    unfold new_RegularGridInterpolator. rewrite Hacc. eauto.
Qed.

(** C8. The interpolator that [KcMM] returns has [bounds_error] off and no
    fill value: evaluating it never raises the out-of-bounds error, and at
    every sample point, inside the grid or outside, it returns the value of
    the multilinear formula. *)
Theorem KcMM_interpolator_extrapolates s (l1 l2 tau : list F) g s' :
  KcMM l1 l2 tau s = (Ok g, s') →
  bounds_error g = false ∧ fill_value g = None ∧
  ∀ x lag,
    rgi_call g x lag ≠ Err (LibraryError bounds_message) ∧
    ∀ pts, as_points x lag = Some pts →
           rgi_call g x lag = Ok (map (map (rgi_linear (grid g) (values g))) pts).
Proof.
  intros (Hgrid & Hbe & Hfv)%KcMM_Ok_flags.
  split; [done|]. split; [done|]. intros x lag.
  unfold rgi_call, rgi_value. rewrite Hbe, Hfv. simpl.
  destruct (as_points x lag) as [pts|]; split; try done.
  by intros pts' [= <-].
Qed.

(** ** The loops of the constructor *)

Lemma for_each_invariant {A} (P : Kernels F → Prop) (xs : list A) (body : A → M F unit) :
  (∀ x s r s', x ∈ xs → P s → body x s = (r, s') → P s') →
  ∀ s r s', P s → for_each xs body s = (r, s') → P s'.
Proof.
  induction xs as [|x xs IH]; intros Hb s r s' HP; simpl.
  - unfold ret. by intros [= <- <-].
  - unfold bind. destruct (body x s) as [[[]|e] s1] eqn:E.
    + apply IH; [intros; eapply Hb; eauto; by right|].
      eapply Hb; eauto. by left.
    + intros [= <- <-]. eapply Hb; eauto. by left.
Qed.

Lemma for_each_Ok_elem {A} (P : Kernels F → Prop) (xs : list A) (body : A → M F unit) :
  (∀ x s r s', x ∈ xs → P s → body x s = (r, s') → P s') →
  ∀ s s' x, P s → for_each xs body s = (Ok tt, s') → x ∈ xs →
    ∃ s1 s2, P s1 ∧ body x s1 = (Ok tt, s2).
Proof.
  induction xs as [|y xs IH]; intros Hb s s' x HP Hrun Hx.
  - by apply elem_of_nil in Hx.
  - simpl in Hrun. unfold bind in Hrun.
    destruct (body y s) as [[[]|e] s1] eqn:E; [|discriminate].
    apply elem_of_cons in Hx as [->|Hx]; [by eauto|].
    eapply (IH (λ x0 s0 r0 s0' Hin, Hb x0 s0 r0 s0' (list_elem_of_further _ _ _ Hin)));
      [|exact Hrun|exact Hx].
    eapply Hb; eauto. by left.
Qed.

Lemma pair_key_first_row (j : nat) : pair_key 0 j ≠ pair_key 1 0.
Proof. unfold pair_key. simpl. discriminate. Qed.

(** What the [if] branch of the body (the pairs with [i <= j]) leaves in
    [self], whether it completes or raises. *)
Lemma pair_body_upper MTGP i j s r s' :
  i ≤ j → pair_body MTGP i j s = (r, s') →
  self_nus s' = self_nus s ∧ nmodel s' = nmodel s ∧
  (data_tau s' = data_tau s ∨
   ∃ di dj, self_data s !! i = Some di ∧ self_data s !! j = Some dj ∧
            data_tau s' = <[pair_key i j := outer_difference di dj]> (data_tau s)).
Proof.
  intros Hij. unfold pair_body. rewrite bool_decide_eq_true_2 by done.
  unfold KcMM, pool_map_integrand, bind, get, modify, item, subscript, lift.
  simpl. intros Hrun.
  repeat (case_match; simplify_eq/=); of_option_inv; eauto 10.
Qed.

Lemma pair_body_Ok_nus MTGP i j s s' :
  pair_body MTGP i j s = (Ok tt, s') →
  is_Some (self_nus s !! i) ∧ is_Some (self_nus s !! j).
Proof.
  unfold pair_body, bind, get, modify, item, subscript, lift. simpl. intros Hrun.
  destruct (self_nus s !! i); simpl in *; [|discriminate].
  destruct (self_nus s !! j); simpl in *; [|discriminate].
  eauto.
Qed.

(** The [else] branch at a pair whose key was never stored. *)
Lemma pair_body_lower_missing MTGP i j s :
  j < i → data_tau s !! pair_key i j = None →
  ∃ e s', pair_body MTGP i j s = (Err e, s') ∧ data_tau s' = data_tau s ∧
          (is_Some (self_nus s !! i) → is_Some (self_nus s !! j) →
           e = KeyError (pair_key i j)).
Proof.
  intros Hji Hnone. unfold pair_body.
  rewrite bool_decide_eq_false_2 by lia.
  unfold bind, get, modify, item, subscript, lift. simpl.
  destruct (self_nus s !! i) as [a|]; simpl.
  - destruct (self_nus s !! j) as [b|]; simpl.
    + rewrite Hnone. simpl. eauto 10.
    + eexists _, _. split; [reflexivity|]. split; [reflexivity|].
      by intros _ [? [=]].
  - eexists _, _. split; [reflexivity|]. split; [reflexivity|].
    by intros [? [=]].
Qed.

(** The first row of the loops stores keys of the pairs (0, j) only. *)
Lemma first_row_state MTGP s r s' :
  row MTGP 0 s = (r, s') →
  self_nus s' = self_nus s ∧ nmodel s' = nmodel s ∧
  (∀ key, is_Some (data_tau s' !! key) →
          is_Some (data_tau s !! key) ∨ ∃ j, key = pair_key 0 j).
Proof.
  unfold row, bind, get. simpl.
  apply (for_each_invariant
    (λ s1, self_nus s1 = self_nus s ∧ nmodel s1 = nmodel s ∧
           ∀ key, is_Some (data_tau s1 !! key) →
                  is_Some (data_tau s !! key) ∨ ∃ j, key = pair_key 0 j)); [|by auto].
  intros j s1 r1 s2 _ (Hn & Hm & Hk) Hrun.
  apply pair_body_upper in Hrun as (Hn' & Hm' & Hd); [|lia].
  split; [congruence|]. split; [congruence|].
  intros key Hsome. destruct Hd as [Hd|(di & dj & _ & _ & Hd)]; rewrite Hd in Hsome.
  - by apply Hk.
  - destruct (decide (pair_key 0 j = key)) as [<-|Hne]; [by eauto|].
    rewrite lookup_insert_ne in Hsome by done. by apply Hk.
Qed.

Lemma first_row_Ok_nus MTGP s s' :
  2 ≤ nmodel s → row MTGP 0 s = (Ok tt, s') →
  is_Some (self_nus s !! 0) ∧ is_Some (self_nus s !! 1).
Proof.
  intros Hn. unfold row, bind, get. simpl. intros Hrun.
  assert (Hstep : ∀ (j : nat) s1 (r : result unit) s2, j ∈ range (nmodel s) →
            self_nus s1 = self_nus s → pair_body MTGP 0 j s1 = (r, s2) →
            self_nus s2 = self_nus s).
  { intros j s1 r s2 _ Hs1 Hb. apply pair_body_upper in Hb as (-> & _); [done|lia]. }
  destruct (for_each_Ok_elem _ _ _ Hstep s s' 1 eq_refl Hrun) as (s1 & s2 & Hs1 & Hb).
  { apply elem_of_seq. lia. }
  apply pair_body_Ok_nus in Hb. rewrite Hs1 in Hb. exact Hb.
Qed.

Lemma range_two (n : nat) : 2 ≤ n → range n = 0 :: 1 :: seq 2 (n - 2).
Proof.
  intros Hn. unfold range. destruct n as [|[|n]]; [lia..|].
  simpl. by rewrite Nat.sub_0_r.
Qed.

(** With two tasks or more, the second row starts at the pair (1, 0), whose
    key was never stored. *)
Lemma pair_loop_two_tasks MTGP s :
  2 ≤ nmodel s → data_tau s = ∅ →
  (∃ e s', pair_loop MTGP s = (Err e, s')) ∧
  (∀ s1, row MTGP 0 s = (Ok tt, s1) →
     (pair_loop MTGP s).1 = Err (KeyError (pair_key 1 0)) ∧
     data_tau s1 !! pair_key 1 0 = None ∧
     (∀ key, is_Some (data_tau s1 !! key) → ∃ j, key = pair_key 0 j)).
Proof.
  intros Hn Hempty.
  assert (Hloop : pair_loop MTGP s
    = bind (row MTGP 0)
        (λ _, bind (row MTGP 1) (λ _, for_each (seq 2 (nmodel s - 2)) (row MTGP))) s).
  { unfold pair_loop. unfold bind at 1. unfold get. simpl.
    by rewrite (range_two _ Hn). }
  rewrite Hloop. clear Hloop.
  destruct (row MTGP 0 s) as [[[]|e0] s1] eqn:Hrow0.
  - pose proof (first_row_state _ _ _ _ Hrow0) as (Hnus & Hmod & Hkeys).
    assert (Hkeys' : ∀ key, is_Some (data_tau s1 !! key) → ∃ j, key = pair_key 0 j).
    { intros key Hk. destruct (Hkeys key Hk) as [Hk'|]; [|done].
      rewrite Hempty, lookup_empty in Hk'. by destruct Hk'. }
    assert (Hmiss : data_tau s1 !! pair_key 1 0 = None).
    { apply eq_None_not_Some. intros [j Hj]%Hkeys'.
      symmetry in Hj. by apply pair_key_first_row in Hj. }
    destruct (pair_body_lower_missing MTGP 1 0 s1 ltac:(lia) Hmiss)
      as (e & s2 & Hbody & _ & He).
    assert (Hrow1 : row MTGP 1 s1 = (Err e, s2)).
    { unfold row. unfold bind at 1, get. simpl. rewrite Hmod, (range_two _ Hn).
      rewrite for_each_cons. by apply bind_Err. }
    rewrite (bind_Ok _ _ _ _ _ Hrow0), (bind_Err _ _ _ _ _ Hrow1).
    split; [by eauto|]. intros s1' [= <-]. split; [|by split].
    simpl. f_equal. apply He.
    + rewrite Hnus. by eapply first_row_Ok_nus.
    + rewrite Hnus. by eapply first_row_Ok_nus.
  - rewrite (bind_Err _ _ _ _ _ Hrow0). split; [by eauto|]. intros s1' [=].
Qed.

(** C2. When the number of data arrays differs from the task count the
    constructor raises the [ValueError] of its length check and nothing has
    been dispatched to a pool or stored by then; when the two agree that
    error is not raised. *)
Theorem length_check_before_grids data MTGP :
  (length data ≠ n_Tasks MTGP →
     ∃ s, construct data MTGP
          = (Err (ValueError (length_mismatch (length data) (n_Tasks MTGP))), s)
          ∧ dispatched s = [] ∧ CovMat s = ∅ ∧ data_tau s = ∅) ∧
  (length data = n_Tasks MTGP →
     ∀ msg, (construct data MTGP).1 ≠ Err (ValueError msg)).
Proof.
  split.
  - intros Hne. eexists. split; [by apply construct_mismatch|]. done.
  - intros Heq msg. rewrite construct_match by done.
    apply never_ValueError_pair_loop.
Qed.

(** C3, as amended. With two tasks or more and as many data arrays,
    construction never completes: once the first row of the pair loop (the
    grid builds of the pairs (0, j)) is through, the pair (1, 0) reads
    [data_tau] under its own key, only keys of pairs (0, j) have been
    stored, and the constructor raises [KeyError]. Construction can complete
    only with at most one task. *)
Theorem construct_at_most_one_task data MTGP :
  (2 ≤ n_Tasks MTGP → length data = n_Tasks MTGP →
     (∃ e s, construct data MTGP = (Err e, s)) ∧
     (∀ s1, row MTGP 0 (prepared data MTGP) = (Ok tt, s1) →
        (construct data MTGP).1 = Err (KeyError (pair_key 1 0)) ∧
        data_tau s1 !! pair_key 1 0 = None ∧
        (∀ key, is_Some (data_tau s1 !! key) → ∃ j, key = pair_key 0 j))) ∧
  (∀ k, construct data MTGP = (Ok tt, k) → n_Tasks MTGP ≤ 1).
Proof.
  assert (Htwo : 2 ≤ n_Tasks MTGP → length data = n_Tasks MTGP →
     (∃ e s, construct data MTGP = (Err e, s)) ∧
     (∀ s1, row MTGP 0 (prepared data MTGP) = (Ok tt, s1) →
        (construct data MTGP).1 = Err (KeyError (pair_key 1 0)) ∧
        data_tau s1 !! pair_key 1 0 = None ∧
        (∀ key, is_Some (data_tau s1 !! key) → ∃ j, key = pair_key 0 j))).
  { intros Hn Hlen. rewrite construct_match by done.
    by apply pair_loop_two_tasks. }
  split; [exact Htwo|].
  intros k Hok. destruct (decide (length data = n_Tasks MTGP)) as [Hlen|Hlen].
  - destruct (decide (2 ≤ n_Tasks MTGP)) as [Hn|Hn]; [|lia].
    destruct (Htwo Hn Hlen) as [(e & s & Herr) _]. congruence.
  - rewrite construct_mismatch in Hok by done. discriminate.
Qed.

(** ** The call-time evaluation *)

Lemma comprehension_ext {A B} (P : Kernels F → Prop) (xs : list A)
    (body1 body2 : A → M F B) :
  (∀ x s, x ∈ xs → P s → body1 x s = body2 x s) →
  (∀ x s r s', x ∈ xs → P s → body2 x s = (r, s') → P s') →
  ∀ s, P s → comprehension xs body1 s = comprehension xs body2 s.
Proof.
  induction xs as [|x xs IH]; intros Hext Hinv s HP; simpl; [reflexivity|].
  unfold bind. rewrite (Hext x s) by (done || by left).
  destruct (body2 x s) as [[b|e] s1] eqn:E; [|reflexivity].
  rewrite IH; [reflexivity| | |].
  - intros y s2 Hy. apply Hext. by right.
  - intros y s2 r s3 Hy. eapply Hinv. by right.
  - eapply Hinv; eauto. by left.
Qed.

Lemma comprehension_invariant {A B} (P : Kernels F → Prop) (xs : list A)
    (body : A → M F B) :
  (∀ x s r s', x ∈ xs → P s → body x s = (r, s') → P s') →
  ∀ s r s', P s → comprehension xs body s = (r, s') → P s'.
Proof.
  induction xs as [|x xs IH]; intros Hb s r s' HP; simpl.
  - unfold ret. by intros [= <- <-].
  - unfold bind at 1. destruct (body x s) as [[b|e] s1] eqn:E.
    + assert (HP1 : P s1) by (eapply Hb; eauto; by left).
      unfold bind. destruct (comprehension xs body s1) as [[bs|e] s2] eqn:E2.
      * unfold ret. intros [= <- <-]. eapply IH; eauto.
        intros; eapply Hb; eauto. by right.
      * intros [= <- <-]. eapply IH; eauto.
        intros; eapply Hb; eauto. by right.
    + intros [= <- <-]. eapply Hb; eauto. by left.
Qed.

Lemma block_state (pars : list (F * F)) (i j : nat) s r s' :
  block pars i j s = (r, s') → s' = s.
Proof.
  unfold block, bind, get, item, subscript, lift, ret. simpl. intros Hrun.
  by repeat (case_match; simplify_eq/=).
Qed.

Lemma comprehension_fails {A B} (P : Kernels F → Prop) (xs : list A)
    (body : A → M F B) (x : A) :
  x ∈ xs → (∀ s, P s → ∃ e s', body x s = (Err e, s')) →
  (∀ y s r s', y ∈ xs → P s → body y s = (r, s') → P s') →
  ∀ s, P s → ∃ e s', comprehension xs body s = (Err e, s').
Proof.
  intros Hx Hfail. induction xs as [|y xs IH]; intros Hinv s HP.
  - by apply elem_of_nil in Hx.
  - simpl. unfold bind at 1. destruct (body y s) as [[b|e] s1] eqn:E; [|by eauto].
    apply elem_of_cons in Hx as [->|Hx].
    + destruct (Hfail s HP) as (e & s' & He). congruence.
    + destruct (IH Hx) with (s := s1) as (e & s' & He).
      * intros z s2 r s3 Hz. eapply Hinv. by right.
      * eapply Hinv; eauto. by left.
      * rewrite (bind_Err _ _ _ _ _ He). eauto.
Qed.

Lemma block_missing_row (pars : list (F * F)) (j : nat) s :
  block pars (length pars) j s = (Err (IndexError (length pars)), s).
Proof.
  unfold block, item, bind, lift.
  by rewrite (lookup_ge_None_2 pars (length pars)).
Qed.

Lemma blocks_missing_row (pars : list (F * F)) s :
  length pars < nTasks s → ∃ e s', blocks pars s = (Err e, s').
Proof.
  intros Hn. unfold blocks. unfold bind at 1. unfold get. simpl.
  assert (Hblock : ∀ (i j : nat) s1 (r : result (list (list F))) s2,
            s1 = s → block pars i j s1 = (r, s2) → s2 = s).
  { intros i j s1 r s2 -> Hb. by apply block_state in Hb. }
  apply (comprehension_fails (λ s1, s1 = s) _ _ 0); [apply elem_of_seq; lia| |  |done].
  - intros s1 ->. unfold bind at 1. unfold get. simpl.
    apply (comprehension_fails (λ s1, s1 = s) _ _ (length pars));
      [apply elem_of_seq; lia| | |done].
    + intros s2 ->. rewrite block_missing_row. eauto.
    + intros i s2 r s3 _. apply Hblock.
  - intros j s1 r s2 _ ->. unfold bind at 1. unfold get. simpl.
    apply (comprehension_invariant (λ s0, s0 = s)); [|done].
    intros i s3 r3 s4 _. apply Hblock.
Qed.

Lemma blocks_state (pars : list (F * F)) s r s' : blocks pars s = (r, s') → s' = s.
Proof.
  unfold blocks. unfold bind at 1. unfold get. simpl.
  apply (comprehension_invariant (λ s0, s0 = s)); [|done].
  intros j s1 r1 s2 _ ->. unfold bind at 1. unfold get. simpl.
  apply (comprehension_invariant (λ s0, s0 = s)); [|done].
  intros i s3 r3 s4 _ -> Hb. by apply block_state in Hb.
Qed.

(** One entry of the comprehension cannot be computed when the interpolator
    rejects the list of line 89: whatever the subscripts before the call
    give, the entry ends in an exception. *)
Lemma block_raises (pars : list (F * F)) (i j : nat) s :
  (∀ x lag, as_points x lag = None) → ∃ e, block pars i j s = (Err e, s).
Proof.
  intros Hreject. unfold block, bind, get, item, subscript, lift, ret. simpl.
  destruct (pars !! i) as [pi|]; simpl; [|by eauto].
  destruct (pars !! j) as [pj|]; simpl; [|by eauto].
  destruct (CovMat s !! pair_key i j) as [o|]; simpl; [|by eauto].
  destruct (data_tau s !! pair_key i j) as [lag|]; simpl; [|by eauto].
  destruct o as [g|o]; simpl; [|by eauto].
  unfold rgi_call. rewrite Hreject. eauto.
Qed.

(** The first entry that the comprehension evaluates is the one of the pair
    (0, 0): its exception is the one of the whole evaluation. *)
Lemma blocks_first_block (pars : list (F * F)) s e :
  1 ≤ nTasks s → block pars 0 0 s = (Err e, s) → blocks pars s = (Err e, s).
Proof.
  intros Hn Hb. unfold blocks. unfold bind at 1. unfold get. simpl.
  destruct (nTasks s) as [|n] eqn:En; [lia|].
  unfold range. cbn [seq comprehension]. unfold bind at 1. unfold bind at 1.
  unfold get. simpl. rewrite En. cbn [seq comprehension].
  unfold bind at 1. by rewrite Hb.
Qed.

Lemma blocks_no_task (pars : list (F * F)) s :
  nTasks s = 0 → blocks pars s = (Ok [], s).
Proof.
  intros Hn. unfold blocks. unfold bind at 1. unfold get. simpl. by rewrite Hn.
Qed.

Lemma call_first_block (pars : list (F * F)) s e :
  1 ≤ nTasks s → block pars 0 0 s = (Err e, s) → __call__ pars s = (Err e, s).
Proof.
  intros Hn Hb. unfold __call__.
  by rewrite (bind_Err _ _ _ _ _ (blocks_first_block pars s e Hn Hb)).
Qed.

(** With scipy and numpy as they are, no evaluation returns. *)
Lemma call_raises (pars : list (F * F)) s :
  (∀ x lag, as_points x lag = None) → np_block [] = None →
  ∃ e, __call__ pars s = (Err e, s).
Proof.
  intros Hreject Hempty. destruct (nTasks s) as [|n] eqn:En.
  - exists (LibraryError "np.block"). unfold __call__. unfold bind at 1.
    rewrite (blocks_no_task pars s En). unfold bind, lift. by rewrite Hempty.
  - destruct (block_raises pars 0 0 s Hreject) as [e He].
    exists e. apply call_first_block; [lia|done].
Qed.

(** C5. [__call__] has no check of the shape of [pars], and yet a matrix
    whose number of rows differs from the task count never gets a covariance
    matrix back. With fewer rows than tasks the evaluation raises when a
    missing row is read ([IndexError] at once when there is no row at all).
    With more rows than tasks it raises as well, and nothing is cut to the
    first [nTasks] rows: a three-axis interpolator rejects the list of two
    coordinates that line 89 hands to it, and [np.block] rejects the empty
    list when there is no task. In each case [self] is as before the call:
    no matrix is stored or returned. *)
Theorem call_mismatch_raises (pars : list (F * F)) s :
  length pars ≠ nTasks s →
  (length pars < nTasks s → ∃ e, __call__ pars s = (Err e, s)) ∧
  (pars = [] → __call__ pars s = (Err (IndexError 0), s)) ∧
  ((∀ x lag, as_points x lag = None) → np_block [] = None →
     nTasks s < length pars → ∃ e, __call__ pars s = (Err e, s)).
Proof.
  intros Hne. split; [|split].
  - intros Hn. destruct (blocks_missing_row pars s Hn) as (e & s' & He).
    pose proof (blocks_state _ _ _ _ He) as ->.
    unfold __call__. rewrite (bind_Err _ _ _ _ _ He). eauto.
  - intros ->. simpl in Hne. apply call_first_block; [lia|].
    apply (block_missing_row [] 0 s).
  - intros Hreject Hempty _. by apply call_raises.
Qed.

(** With two tasks or more there is no evaluation at all: the constructor
    has raised before [__call__] could run. *)
Lemma construct_and_call_two_tasks data MTGP (pars : list (F * F)) :
  2 ≤ n_Tasks MTGP → length data = n_Tasks MTGP →
  ∃ e s, construct_and_call data MTGP pars = (Err e, s).
Proof.
  intros Hn Hlen. unfold construct_and_call.
  destruct (pair_loop_two_tasks MTGP (prepared data MTGP))
    as [(e & s & Hloop) _]; [done..|].
  rewrite <-construct_match in Hloop by done. unfold construct in Hloop.
  rewrite (bind_Err _ _ _ _ _ Hloop). eauto.
Qed.

End AssemblerFacts.

(** ** The methods on concrete inputs *)

Lemma pair_body_lower_copies {F} {L : Libraries F} (MTGP : GPConfig F) (i j : nat)
    (s : Kernels F) (a b : Nu) (lag : list (list F)) (o : covobj F) :
  j < i → self_nus s !! i = Some a → self_nus s !! j = Some b →
  data_tau s !! pair_key i j = Some lag → CovMat s !! pair_key i j = Some o →
  ∃ s', pair_body MTGP i j s = (Ok tt, s') ∧
        data_tau s' = <[pair_key j i := lag]> (data_tau s) ∧
        CovMat s' = <[pair_key j i := NpTransposed o]> (CovMat s).
Proof.
  intros Hji Ha Hb Hlag Ho. unfold pair_body.
  rewrite bool_decide_eq_false_2 by lia.
  unfold bind, get, modify, item, subscript, lift. simpl.
  rewrite Ha, Hb. simpl. rewrite Hlag. simpl. rewrite Ho. simpl. eauto.
Qed.

Example construct_one_task :
  (construct Sample.one_array Sample.one_task).1 = Ok tt ∧
  data_tau Sample.built !! "t_00" = Some [[0; -1]; [1; 0]]%Z.
Proof. split; vm_compute; reflexivity. Qed.

(** C1 on the code: with two squared-exponential tasks of 5 and 7
    observation points and the parameter matrix [[1, 1], [1, 1]], no covariance
    matrix comes back whose blocks could be compared: the constructor raises
    [KeyError] at the pair (1, 0). *)
Theorem no_covariance_for_two_tasks :
  (construct_and_call Sample.two_arrays Sample.two_tasks [(1, 1); (1, 1)]%Z).1
  = Err (KeyError "t_10").
Proof. vm_compute. reflexivity. Qed.

(** C4 on the code: with two tasks the constructor stops at the pair
    (1, 0) with [KeyError]; the lag matrix of (0, 1) is stored, none is ever
    stored for (1, 0). *)
Theorem swapped_pair_lag_never_stored :
  (construct [[0; 1]; [5]]%Z Sample.two_tasks).1 = Err (KeyError "t_10") ∧
  data_tau (construct [[0; 1]; [5]]%Z Sample.two_tasks).2 !! "t_01"
    = Some [[-5]; [-4]]%Z ∧
  data_tau (construct [[0; 1]; [5]]%Z Sample.two_tasks).2 !! "t_10" = None.
Proof. repeat split; vm_compute; reflexivity. Qed.

(** C2 at three configured tasks and two data arrays, and at one task and
    one array. *)
Lemma length_check_before_grids_witness :
  (length Sample.two_arrays ≠ n_Tasks Sample.three_tasks ∧
   ∃ s, construct Sample.two_arrays Sample.three_tasks
        = (Err (ValueError (length_mismatch 2 3)), s) ∧ dispatched s = []) ∧
  (length Sample.one_array = n_Tasks Sample.one_task ∧
   ∀ msg, (construct Sample.one_array Sample.one_task).1 ≠ Err (ValueError msg)).
Proof.
  destruct (length_check_before_grids Sample.two_arrays Sample.three_tasks) as [H3 _].
  destruct (length_check_before_grids Sample.one_array Sample.one_task) as [_ H1].
  split.
  - assert (Hne : length Sample.two_arrays ≠ n_Tasks Sample.three_tasks)
      by (vm_compute; lia).
    split; [exact Hne|]. destruct (H3 Hne) as (s & Hs & Hd & _). eauto.
  - split; [reflexivity|]. apply H1. reflexivity.
Defined.

(** C3 as stated fails: with no task and no data array the constructor
    completes, and the task count is not one. *)
Lemma construct_without_tasks :
  (construct (L := Sample.integers) [] Sample.no_tasks).1 = Ok tt ∧
  n_Tasks Sample.no_tasks ≠ 1.
Proof. split; [vm_compute; reflexivity|vm_compute; lia]. Qed.

(** C3 as amended, at two tasks. *)
Lemma construct_at_most_one_task_witness :
  2 ≤ n_Tasks Sample.two_tasks ∧
  length Sample.two_arrays = n_Tasks Sample.two_tasks ∧
  (construct Sample.two_arrays Sample.two_tasks).1 = Err (KeyError (pair_key 1 0)).
Proof.
  assert (H2 : 2 ≤ n_Tasks Sample.two_tasks) by (vm_compute; lia).
  assert (Hl : length Sample.two_arrays = n_Tasks Sample.two_tasks) by reflexivity.
  split; [exact H2|]. split; [exact Hl|].
  destruct (construct_at_most_one_task Sample.two_arrays Sample.two_tasks)
    as [Htwo _].
  destruct (Htwo H2 Hl) as [_ Hrow].
  apply (Hrow (row Sample.two_tasks 0
                 (prepared Sample.two_arrays Sample.two_tasks)).2).
  vm_compute. reflexivity.
Defined.

(** C5 at the one-task assembler: a parameter matrix of two rows, and one
    without rows. *)
Lemma call_mismatch_raises_witness :
  length [(2, 1); (7, 7)]%Z ≠ nTasks Sample.built ∧
  (∃ e, __call__ [(2, 1); (7, 7)]%Z Sample.built = (Err e, Sample.built)) ∧
  (__call__ [(2, 1); (7, 7)]%Z Sample.built).1
  = Err (LibraryError "RegularGridInterpolator.__call__") ∧
  __call__ [] Sample.built = (Err (IndexError 0), Sample.built).
Proof.
  assert (H2 : length [(2, 1); (7, 7)]%Z ≠ nTasks Sample.built) by (vm_compute; lia).
  assert (H0 : length (@nil (Z * Z)) ≠ nTasks Sample.built) by (vm_compute; lia).
  split; [exact H2|]. split; [|split].
  - destruct (call_mismatch_raises [(2, 1); (7, 7)]%Z Sample.built H2) as (_ & _ & Hmore).
    apply Hmore; [reflexivity|reflexivity|vm_compute; lia].
  - vm_compute. reflexivity.
  - destruct (call_mismatch_raises [] Sample.built H0) as (_ & Hnone & _).
    exact (Hnone eq_refl).
Defined.

(** C6 on a grid of 2 x 2 x 2 points whose work items complete in reverse
    order. *)
Lemma KcMM_row_major_witness :
  ∃ g, KcMM [1; 3]%Z [1; 3]%Z [-10; 10]%Z Sample.ready
       = (Ok g, log_dispatch (product3 [-10; 10] [1; 3] [1; 3])%Z Sample.ready) ∧
       values g = [[[-989; -987]; [-969; -967]]; [[1011; 1013]; [1031; 1033]]]%Z.
Proof.
  destruct (KcMM_row_major Sample.ready Sample.SE Sample.SE
              [1; 3]%Z [1; 3]%Z [-10; 10]%Z eq_refl eq_refl) as (_ & _ & _ & Hbuild).
  { exact (reverse_Permutation _). }
  destruct (Hbuild [-989; -987; -969; -967; 1011; 1013; 1031; 1033]%Z)
    as (g & Hg & Hv); [reflexivity|reflexivity|].
  exists g. split; [exact Hg|exact Hv].
Defined.

(** C8 on the same grid, at a lag far outside the lag axis [-10, 10]. *)
Lemma KcMM_interpolator_extrapolates_witness :
  ∃ g s', KcMM [1; 3]%Z [1; 3]%Z [-10; 10]%Z Sample.ready = (Ok g, s') ∧
          bounds_error g = false ∧
          rgi_call g 50%Z [[1000]]%Z ≠ Err (LibraryError bounds_message).
Proof.
  eexists _, _. split; [vm_compute; reflexivity|].
  edestruct (KcMM_interpolator_extrapolates Sample.ready [1; 3]%Z [1; 3]%Z [-10; 10]%Z)
    as (Hbe & _ & Hcall); [vm_compute; reflexivity|].
  split; [exact Hbe|]. exact (proj1 (Hcall 50%Z [[1000]]%Z)).
Defined.

(** * Further properties of the basis functions *)

Section BasisProfile.
Import Basis.
Context {S : SpecialFunctions}.
Local Open Scope R_scope.

Lemma exp_le_mono (x y : R) : x <= y → exp x <= exp y.
Proof.
  intros [Hlt| ->]; [left; by apply exp_increasing|right; reflexivity].
Qed.

Lemma pow2_pos_of_ne (l : R) : l ≠ 0 → 0 < l ^ 2.
Proof. intros Hl. rewrite <-Rsqr_pow2. by apply Rsqr_pos_lt. Qed.

Lemma squared_exponential_exponent (tau l : R) :
  l ≠ 0 → - (Rabs tau ^ 2) / (2 * l ^ 2) <= 0.
Proof.
  intros Hl. assert (0 < 2 * l ^ 2) by (pose proof (pow2_pos_of_ne l Hl); lra).
  assert (0 <= Rabs tau ^ 2) by (apply pow_le, Rabs_pos).
  apply Rmult_le_reg_r with (2 * l ^ 2); [done|].
  unfold Rdiv. rewrite Rmult_assoc, Rinv_l by lra. lra.
Qed.

(** X1. The squared-exponential basis function is even in the lag, lies in
    [0, 1], is 1 at zero lag and does not grow with the size of the lag. *)
Theorem squared_exponential_profile (tau tau' l : R) :
  l ≠ 0 →
  ∃ v v', gMdef tau (NuStr "0.0") l = Ok (KScalar v) ∧
          gMdef tau' (NuStr "0.0") l = Ok (KScalar v') ∧
          gMdef (- tau) (NuStr "0.0") l = Ok (KScalar v) ∧
          0 <= v <= 1 ∧
          (tau = 0 → v = 1) ∧
          (Rabs tau <= Rabs tau' → v' <= v).
Proof.
  intros Hl.
  exists (exp (- (Rabs tau ^ 2) / (2 * l ^ 2))), (exp (- (Rabs tau' ^ 2) / (2 * l ^ 2))).
  split; [reflexivity|]. split; [reflexivity|].
  split; [unfold gMdef; simpl; by rewrite Rabs_Ropp|].
  split; [split; [left; apply exp_pos|]|split].
  - rewrite <-exp_0. apply exp_le_mono. by apply squared_exponential_exponent.
  - intros ->. rewrite Rabs_R0. rewrite <-exp_0. f_equal. unfold Rdiv. ring.
  - intros Hle. apply exp_le_mono.
    assert (0 < 2 * l ^ 2) by (pose proof (pow2_pos_of_ne l Hl); lra).
    assert (Rabs tau ^ 2 <= Rabs tau' ^ 2).
    { apply pow_incr. split; [apply Rabs_pos|done]. }
    unfold Rdiv. apply Rmult_le_compat_r; [left; by apply Rinv_0_lt_compat|lra].
Qed.


End BasisProfile.

(** X1 at lags 1 and 2 and length-scale 1. *)
Lemma squared_exponential_profile_witness :
  (1 ≠ 0)%R ∧
  ∃ v, Basis.gMdef (S := Sample.flat_backend) 1 (NuStr "0.0") 1 = Ok (Basis.KScalar v) ∧
       (0 <= v <= 1)%R.
Proof.
  split; [exact R1_neq_R0|].
  destruct (squared_exponential_profile (S := Sample.flat_backend) 1 2 1 R1_neq_R0)
    as (v & v' & Hv & _ & _ & H01 & _).
  exists v. split; [exact Hv|exact H01].
Defined.


(** * Further properties of the assembler *)

Section AssemblerMore.
Context {F : Type} {L : Libraries F}.
Implicit Types (s : Kernels F) (MTGP : GPConfig F) (data : list (list F)).

Ltac invert_lookups :=
  repeat match goal with
    | H : of_option _ _ = Ok _ |- _ => apply of_option_Ok in H
    | H : of_option _ _ = Err _ |- _ => apply of_option_Err in H as [? ->]
    end.

(** X3. The lag matrix [a[:, None] - b[None, :]] has one row per point of
    [a] and one column per point of [b], entry (i, j) is [a[i] - b[j]], and
    the matrix of the swapped pair is its negative transpose. *)
Theorem lag_matrix_entries (a b : list F) (neg : F → F) :
  (∀ x y, Fsub y x = neg (Fsub x y)) →
  length (outer_difference a b) = length a ∧
  Forall (λ line, length line = length b) (outer_difference a b) ∧
  (∀ i j x y, a !! i = Some x → b !! j = Some y →
     ∃ line, outer_difference a b !! i = Some line ∧ line !! j = Some (Fsub x y)) ∧
  (∀ i j line v, outer_difference a b !! i = Some line → line !! j = Some v →
     ∃ line', outer_difference b a !! j = Some line' ∧ line' !! i = Some (neg v)).
Proof.
  intros Hneg. unfold outer_difference.
  split; [by rewrite length_map|]. split.
  { apply Forall_forall. intros line Hl.
    apply list_elem_of_In, in_map_iff in Hl as (x & <- & _). by rewrite length_map. }
  split.
  - intros i j x y Hx Hy. eexists. rewrite lookup_map, Hx. simpl.
    split; [reflexivity|]. by rewrite lookup_map, Hy.
  - intros i j line v Hl Hv. rewrite lookup_map in Hl.
    destruct (a !! i) as [x|] eqn:Hx; [|discriminate]. simpl in Hl.
    injection Hl as <-. rewrite lookup_map in Hv.
    destruct (b !! j) as [y|] eqn:Hy; [|discriminate]. simpl in Hv.
    injection Hv as <-. eexists. rewrite lookup_map, Hy. simpl.
    split; [reflexivity|]. rewrite lookup_map, Hx. simpl. by rewrite Hneg.
Qed.

(** X4. A pair with [i <= j] that completes has done exactly one pool
    dispatch and stored exactly one interpolator and one lag matrix, both
    under the key of the pair; the axes of the interpolator are the lag
    axis on [-10, 10], the length-scale axis of task [j] and that of task
    [i], in this order. *)
Theorem pair_body_stores_pair MTGP (i j : nat) s s' :
  i ≤ j → pair_body MTGP i j s = (Ok tt, s') →
  ∃ a b ti tj g di dj,
    self_nus s !! i = Some a ∧ self_nus s !! j = Some b ∧
    Task MTGP !! task_key (i + 1) = Some ti ∧ Task MTGP !! task_key (j + 1) = Some tj ∧
    self_data s !! i = Some di ∧ self_data s !! j = Some dj ∧
    grid g = (linspace (F_of_Z (-10)) (F_of_Z 10) (n_points MTGP),
              linspace (l_min tj) (l_max tj) (n_points MTGP),
              linspace (l_min ti) (l_max ti) (n_points MTGP)) ∧
    CovMat s' = <[pair_key i j := Interp g]> (CovMat s) ∧
    data_tau s' = <[pair_key i j := outer_difference di dj]> (data_tau s) ∧
    dispatched s'
    = (dispatched s ++ [product3 (linspace (F_of_Z (-10)) (F_of_Z 10) (n_points MTGP))
                                 (linspace (l_min tj) (l_max tj) (n_points MTGP))
                                 (linspace (l_min ti) (l_max ti) (n_points MTGP))])%list ∧
    nu1 s' = Some a ∧ nu2 s' = Some b.
Proof.
  intros Hij. unfold pair_body. rewrite bool_decide_eq_true_2 by done.
  unfold KcMM, pool_map_integrand, new_RegularGridInterpolator,
    bind, get, modify, item, subscript, lift.
  simpl. intros Hrun.
  repeat (case_match; simplify_eq/=); invert_lookups.
  eexists a, a0, a1, a2, _, a4, a5.
  do 6 (split; [done|]). split; [|done]. reflexivity.
Qed.

(** X6. With at least one task and as many data arrays, a configuration
    that lists no smoothness value ends the constructor in [IndexError], and
    one without the section of the first task in [KeyError 'Task_1']; in
    both cases nothing was dispatched to a pool. *)
Theorem construct_config_errors data MTGP :
  1 ≤ n_Tasks MTGP → length data = n_Tasks MTGP →
  (nus MTGP = [] →
     ∃ s, construct data MTGP = (Err (IndexError 0), s) ∧ dispatched s = []) ∧
  (∀ nu, nus MTGP !! 0 = Some nu → Task MTGP !! "Task_1" = None →
     ∃ s, construct data MTGP = (Err (KeyError "Task_1"), s) ∧ dispatched s = []).
Proof.
  intros Hn Hlen.
  assert (Hfirst : ∀ e s1, pair_body MTGP 0 0 (prepared data MTGP) = (Err e, s1) →
                           construct data MTGP = (Err e, s1)).
  { intros e s1 Hbody. rewrite construct_match by done.
    assert (Hrow : row MTGP 0 (prepared data MTGP) = (Err e, s1)).
    { unfold row. unfold bind at 1. unfold get. simpl.
      destruct (n_Tasks MTGP) as [|n]; [lia|].
      unfold range. simpl seq. rewrite for_each_cons. by apply bind_Err. }
    unfold pair_loop. unfold bind at 1. unfold get. simpl.
    destruct (n_Tasks MTGP) as [|n]; [lia|].
    unfold range. simpl seq. rewrite for_each_cons. by apply bind_Err. }
  split.
  - intros Hnus. eexists. split; [apply Hfirst|].
    + unfold pair_body, bind, get, modify, item, lift. simpl.
      rewrite Hnus. reflexivity.
    + reflexivity.
  - intros nu Hnu Htask. eexists. split; [apply Hfirst|].
    + assert (Hkey : task_key (0 + 1) = "Task_1") by reflexivity.
      unfold pair_body, bind, get, modify, item, subscript, lift.
      rewrite !Hkey. cbn [prepared set_data_tau set_CovMat_all set_CovMat set_config
        self_nus set_nu1 set_nu2 fst snd]. rewrite Hnu. cbn. rewrite ?Hnu. cbn.
      rewrite Htask. reflexivity.
    + reflexivity.
Qed.

(** X5. With one task, one data array, a smoothness value and the section
    of the task in the configuration, construction completes as soon as
    every integral of the grid is computed and scipy accepts the grid: it
    has dispatched one work list, and holds one interpolator and one lag
    matrix, both under the key ['t_00']. *)
Theorem one_task_construction (d : list F) MTGP (nu : Nu) (t : TaskConfig F)
    (ys : list F) :
  let tau := linspace (F_of_Z (-10)) (F_of_Z 10) (n_points MTGP) in
  let ax := linspace (l_min t) (l_max t) (n_points MTGP) in
  n_Tasks MTGP = 1 → nus MTGP !! 0 = Some nu → Task MTGP !! "Task_1" = Some t →
  completion_order (product3 tau ax ax) ≡ₚ seq 0 (length (product3 tau ax ax)) →
  sequential_map (integrand nu nu) (product3 tau ax ax) = Ok ys →
  rgi_accepts tau ax ax (reshape3 (length tau) (length ax) (length ax) ys) = true →
  ∃ s, construct [d] MTGP = (Ok tt, s) ∧
       CovMat s = {[ "t_00" :=
         Interp {| grid := (tau, ax, ax);
                   values := reshape3 (length tau) (length ax) (length ax) ys;
                   bounds_error := false; fill_value := None |} ]} ∧
       data_tau s = {[ "t_00" := outer_difference d d ]} ∧
       dispatched s = [product3 tau ax ax] ∧
       nTasks s = 1.
Proof.
  intros tau ax Hn Hnu Htask Hperm Hys Hacc.
  apply (pool_map_sequential _ _ _ _ Hperm) in Hys.
  rewrite construct_match by (by rewrite Hn).
  assert (Hrow : row MTGP 0 (prepared [d] MTGP)
                 = bind (pair_body MTGP 0 0) (λ _, ret tt) (prepared [d] MTGP)).
  { unfold row. unfold bind at 1. unfold get. simpl. rewrite Hn. reflexivity. }
  assert (Hloop : pair_loop MTGP (prepared [d] MTGP)
                  = bind (row MTGP 0) (λ _, ret tt) (prepared [d] MTGP)).
  { unfold pair_loop. unfold bind at 1. unfold get. simpl. rewrite Hn. reflexivity. }
  assert (Hbody : ∃ s, pair_body MTGP 0 0 (prepared [d] MTGP) = (Ok tt, s) ∧
       CovMat s = {[ "t_00" :=
         Interp {| grid := (tau, ax, ax);
                   values := reshape3 (length tau) (length ax) (length ax) ys;
                   bounds_error := false; fill_value := None |} ]} ∧
       data_tau s = {[ "t_00" := outer_difference d d ]} ∧
       dispatched s = [product3 tau ax ax] ∧
       nTasks s = 1).
  { assert (Hkey : task_key (0 + 1) = "Task_1") by reflexivity.
    assert (Hpair : pair_key 0 0 = "t_00") by reflexivity.
    unfold pair_body. rewrite bool_decide_eq_true_2 by done.
    rewrite !Hkey, !Hpair.
    unfold bind, get, modify, item, subscript, lift.
    cbn [prepared set_data_tau set_CovMat_all set_CovMat set_config self_nus
         set_nu1 set_nu2 fst snd].
    rewrite Hnu. cbn [of_option]. rewrite ?Hnu. cbn [of_option].
    rewrite Htask. cbn [of_option].
    erewrite KcMM_run by reflexivity.
    fold tau ax. rewrite Hys. unfold new_RegularGridInterpolator. rewrite Hacc.
    cbn. eexists. split; [reflexivity|]. cbn.
    rewrite !insert_empty. done. }
  destruct Hbody as (s & Hs & Hrest).
  exists s. split; [|exact Hrest].
  rewrite Hloop. unfold bind at 1. rewrite Hrow. unfold bind at 1. rewrite Hs.
  reflexivity.
Qed.

(** The failure that the pool keeps is the failure of one of its items. *)
Lemma pool_fold_failure {A B} (f : A → result B) (xs : list A) (order : list nat) (e : exn) :
  (foldl (pool_step f xs) (replicate (length xs) None, None) order).2 = Some e →
  ∃ i x, i ∈ order ∧ xs !! i = Some x ∧ f x = Err e.
Proof.
  induction order as [|i order IH] using rev_ind; simpl; [discriminate|].
  rewrite foldl_snoc.
  destruct (foldl (pool_step f xs) (replicate (length xs) None, None) order)
    as [buf failed]. simpl in IH.
  assert (Hold : failed = Some e → ∃ i0 x, i0 ∈ (order ++ [i])%list ∧ xs !! i0 = Some x ∧ f x = Err e).
  { intros (i0 & x & Hi0 & Hx)%IH. exists i0, x. split; [|done].
    apply elem_of_app. by left. }
  unfold pool_step. simpl.
  destruct (xs !! i) as [x|] eqn:Hi; simpl; [|done].
  destruct (f x) as [b|e'] eqn:Hx; simpl; [done|].
  destruct failed as [e0|]; [done|]. intros [= ->].
  exists i, x. split; [|done]. apply elem_of_app. right. by apply list_elem_of_singleton.
Qed.

Lemma pool_map_Err {A B} (f : A → result B) (xs : list A) (order : list nat) :
  order ≡ₚ seq 0 (length xs) →
  (∀ e, pool_map order f xs = Err e →
        ∃ e0 x, e = WorkerFailure e0 ∧ x ∈ xs ∧ f x = Err e0) ∧
  (∀ x e0, x ∈ xs → f x = Err e0 → ∃ e, pool_map order f xs = Err (WorkerFailure e)).
Proof.
  intros Hperm. split.
  - intros e Hrun.
    destruct (sequential_map f xs) as [ys|e1] eqn:Hseq.
    { apply (pool_map_sequential f xs order ys Hperm) in Hseq. congruence. }
    unfold pool_map in Hrun.
    destruct (foldl (pool_step f xs) (replicate (length xs) None, None) order).2
      as [e0|] eqn:Hfail.
    + injection Hrun as <-.
      apply pool_fold_failure in Hfail as (i & x & _ & Hx & Hfx).
      exists e0, x. split; [done|]. split; [|done]. by eapply list_elem_of_lookup_2.
    + exfalso. destruct (pool_fold_spec f xs order) as (Hlen & Hbuf & Hnone).
      assert (Hok : ∀ x, x ∈ xs → ∃ b, f x = Ok b).
      { intros x (i & Hi)%list_elem_of_lookup_1.
        eapply (proj1 Hnone Hfail i x); [|done].
        rewrite Hperm. apply elem_of_seq. apply lookup_lt_Some in Hi. lia. }
      assert (∃ ys, sequential_map f xs = Ok ys) as [ys Hys]; [|congruence].
      clear Hseq Hrun Hlen Hbuf Hnone Hfail Hperm.
      induction xs as [|x xs IH]; [by eexists|].
      destruct (Hok x) as [b Hb]; [by left|].
      destruct IH as [ys Hys]; [intros; apply Hok; by right|].
      exists (b :: ys). simpl. rewrite Hb. simpl. rewrite Hys. reflexivity.
  - intros x e0 Hx Hfx.
    destruct (pool_map order f xs) as [ys|e] eqn:Hrun.
    + apply (pool_map_sequential f xs order ys Hperm), sequential_map_Forall2 in Hrun.
      apply list_elem_of_lookup_1 in Hx as [i Hi].
      destruct (Forall2_lookup_l _ _ _ _ _ Hrun Hi) as (y & _ & Hy). congruence.
    + unfold pool_map in Hrun.
      destruct (foldl (pool_step f xs) (replicate (length xs) None, None) order).2
        as [e1|] eqn:Hfail; [injection Hrun as <-; eauto|].
      exfalso. destruct (pool_fold_spec f xs order) as (_ & _ & Hnone).
      apply list_elem_of_lookup_1 in Hx as [i Hi].
      destruct (proj1 Hnone Hfail i x) as [b Hb]; [|done|congruence].
      rewrite Hperm. apply elem_of_seq. apply lookup_lt_Some in Hi. lia.
Qed.

(** X7. When the integral fails at some coordinate of the grid, the build
    fails as a whole, whatever the order in which the workers complete: the
    exception of one failing coordinate is re-raised, [self] has only logged
    the dispatch, and no interpolator is returned. *)
Theorem KcMM_worker_failure s (n1 n2 : Nu) (l1 l2 tau : list F) (p : F * F * F) (e0 : exn) :
  nu1 s = Some n1 → nu2 s = Some n2 →
  completion_order (product3 tau l2 l1) ≡ₚ seq 0 (length (product3 tau l2 l1)) →
  p ∈ product3 tau l2 l1 → integrand n1 n2 p = Err e0 →
  ∃ e q, KcMM l1 l2 tau s
         = (Err (WorkerFailure e), log_dispatch (product3 tau l2 l1) s) ∧
         q ∈ product3 tau l2 l1 ∧ integrand n1 n2 q = Err e.
Proof.
  intros H1 H2 Hperm Hp He0.
  destruct (pool_map_Err (integrand n1 n2) _ _ Hperm) as [Hsome Hfail].
  destruct (Hfail p e0 Hp He0) as [e Hrun].
  destruct (Hsome _ Hrun) as (e' & q & [= <-] & Hq & Hfq).
  exists e, q. split; [|done].
  rewrite (KcMM_run _ _ _ _ _ _ H1 H2), Hrun. reflexivity.
Qed.

(** X8. The call-time evaluation only reads the caches: whatever it
    returns or raises, the interpolators, the lag matrices, the task count
    and the log of pool dispatches are as before; when it raises, [self] is
    unchanged altogether, and when it returns a matrix, the one change is
    that [self.CovMat_all] holds that matrix. *)
Theorem call_leaves_caches (pars : list (F * F)) s r s' :
  __call__ pars s = (r, s') →
  CovMat s' = CovMat s ∧ data_tau s' = data_tau s ∧
  nTasks s' = nTasks s ∧ dispatched s' = dispatched s ∧
  (∀ e, r = Err e → s' = s) ∧
  (∀ m, r = Ok m → s' = set_CovMat_all (Some m) s).
Proof.
  unfold __call__. unfold bind at 1.
  destruct (blocks pars s) as [[bs|e] s1] eqn:Hb; apply blocks_state in Hb as ->.
  - unfold bind, lift, modify, ret. simpl.
    destruct (np_block bs) as [m|]; simpl; intros [= <- <-].
    + repeat split; try done. by intros m' [= ->].
    + repeat split; try done.
  - intros [= <- <-]. repeat split; try done.
Qed.

(** X9. No evaluation returns a covariance matrix, whatever the parameter
    matrix and also when its shape is right. With a task, the first entry
    of the comprehension, the one of the pair (0, 0), already ends in an
    exception: on an assembler as the constructor leaves it, the one of the
    interpolator, which has three axes and is handed the list
    [[scalar, matrix]] of two coordinates. Without a task, [np.block] gets an
    empty list. So construction followed by one evaluation never returns. *)
Theorem call_never_returns (pars : list (F * F)) s data MTGP :
  (∀ x lag, as_points x lag = None) → np_block [] = None →
  (∃ e, __call__ pars s = (Err e, s)) ∧
  (nTasks s = 0 → __call__ pars s = (Err (LibraryError "np.block"), s)) ∧
  (∀ g lag, 1 ≤ nTasks s → pars ≠ [] →
     CovMat s !! pair_key 0 0 = Some (Interp g) → data_tau s !! pair_key 0 0 = Some lag →
     __call__ pars s = (Err (LibraryError "RegularGridInterpolator.__call__"), s)) ∧
  (∃ e s', construct_and_call data MTGP pars = (Err e, s')).
Proof.
  intros Hreject Hempty. split; [by apply call_raises|]. split; [|split].
  - intros Hn. unfold __call__. unfold bind at 1.
    rewrite (blocks_no_task pars s Hn). unfold bind, lift. by rewrite Hempty.
  - intros g lag Hn Hpars Hg Hlag. apply call_first_block; [done|].
    destruct pars as [|p rest]; [done|].
    unfold block, bind, get, item, subscript, lift, ret. simpl.
    rewrite Hg. simpl. rewrite Hlag. simpl. unfold rgi_call. by rewrite Hreject.
  - unfold construct_and_call. unfold bind.
    destruct (__init__ data MTGP blank) as [[[]|e] s1]; [|by eauto].
    destruct (call_raises pars s1 Hreject Hempty) as [e He]. eauto.
Qed.

Lemma length_chunk {A} (k n : nat) (l : list A) : length (chunk k n l) = k.
Proof. revert l. induction k as [|k IH]; intros l; simpl; [done|]. by rewrite IH. Qed.

Lemma chunk_lines {A} (k n : nat) (l : list A) :
  k * n ≤ length l → Forall (λ line, length line = n) (chunk k n l).
Proof.
  revert l. induction k as [|k IH]; intros l Hl; simpl; constructor.
  - rewrite length_take. lia.
  - apply IH. rewrite length_drop. lia.
Qed.

Lemma length_product3 {A} (xs ys zs : list A) :
  length (product3 xs ys zs) = length xs * length ys * length zs.
Proof.
  rewrite product3_concat. induction xs as [|x xs IH]; simpl; [done|].
  rewrite length_app, IH, (length_product_row (λ p, p) x ys zs). lia.
Qed.

Lemma pool_map_length {A B} (f : A → result B) (xs : list A) order ys :
  pool_map order f xs = Ok ys → length ys = length xs.
Proof.
  unfold pool_map. destruct (pool_fold_spec f xs order) as (Hlen & _ & _).
  destruct (foldl (pool_step f xs) (replicate (length xs) None, None) order)
    as [buf [e|]]; simpl in *; [discriminate|].
  destruct (mapM (λ slot, slot) buf) as [zs|] eqn:Hm; simpl; [|discriminate].
  intros [= ->]. apply mapM_Some, Forall2_length in Hm. lia.
Qed.

(** X11. A grid build that returns has dispatched one work list with one
    item per point of the Cartesian product of the three axes, and the
    array of the interpolator has one plane per lag, one line per value of
    the l2 axis in each plane and one entry per value of the l1 axis in each
    line; the axes of the interpolator are (lag, l2, l1). *)
Theorem KcMM_shape s (l1 l2 tau : list F) g s' :
  KcMM l1 l2 tau s = (Ok g, s') →
  s' = log_dispatch (product3 tau l2 l1) s ∧
  length (product3 tau l2 l1) = length tau * length l2 * length l1 ∧
  grid g = (tau, l2, l1) ∧
  length (values g) = length tau ∧
  Forall (λ plane, length plane = length l2 ∧
                   Forall (λ line, length line = length l1) plane) (values g).
Proof.
  unfold KcMM, pool_map_integrand, new_RegularGridInterpolator,
    bind, get, modify, lift. simpl. intros Hrun.
  destruct (pool_map _ _ _) as [ys|e] eqn:Hpool; [|discriminate].
  apply pool_map_length in Hpool. rewrite length_product3 in Hpool.
  destruct (rgi_accepts _ _ _ _); [|discriminate]. injection Hrun as <- <-.
  split; [done|]. split; [apply length_product3|]. split; [done|]. simpl.
  unfold reshape3. split; [by rewrite length_map, length_chunk|].
  apply Forall_forall. intros plane Hplane.
  apply list_elem_of_In, in_map_iff in Hplane as (flat & <- & Hflat).
  split; [apply length_chunk|]. apply chunk_lines.
  assert (Hlines : Forall (λ line, length line = length l2 * length l1)
            (chunk (length tau) (length l2 * length l1) ys)).
  { apply chunk_lines. lia. }
  rewrite Forall_forall in Hlines.
  rewrite (Hlines flat) by (by apply list_elem_of_In). lia.
Qed.

End AssemblerMore.

(** X10. The keys [f't_{i}{j}'] tell the pairs apart as long as both
    indices have one digit; with longer indices they do not: the pairs
    (1, 11) and (11, 1) share the key ['t_111']. *)
Theorem pair_key_one_digit (i j i' j' : nat) :
  i < 10 → j < 10 → i' < 10 → j' < 10 →
  (pair_key i j = pair_key i' j' → i = i' ∧ j = j') ∧
  pair_key 1 11 = pair_key 11 1.
Proof.
  intros Hi Hj Hi' Hj'. split; [|reflexivity].
  assert (Hdigit : ∀ n, n < 10 → pretty n = String (pretty_N_char (N.of_nat n)) "").
  { intros n Hn. do 10 (destruct n as [|n]; [reflexivity|]). lia. }
  unfold pair_key. rewrite !Hdigit by done. simpl. intros [= H1 H2].
  apply pretty_N_char_inj in H1, H2; lia.
Qed.

Lemma pair_key_one_digit_witness :
  3 < 10 ∧ 7 < 10 ∧ (pair_key 3 7 = pair_key 3 7 → 3 = 3 ∧ 7 = 7) ∧
  pair_key 1 11 = "t_111".
Proof.
  assert (H3 : 3 < 10) by lia. assert (H7 : 7 < 10) by lia.
  split; [exact H3|]. split; [exact H7|].
  destruct (pair_key_one_digit 3 7 3 7 H3 H7 H3 H7) as [Hinj _].
  split; [exact Hinj|reflexivity].
Defined.

(** X3 on integer arrays, with the opposite as negation. *)
Lemma lag_matrix_entries_witness :
  (∀ x y : Z, Fsub (Libraries := Sample.integers) y x = Z.opp (Fsub x y)) ∧
  length (outer_difference (L := Sample.integers) [0; 1; 4] [5; 7])%Z = 3.
Proof.
  assert (Hneg : ∀ x y : Z, Fsub (Libraries := Sample.integers) y x = Z.opp (Fsub x y))
    by (intros x y; simpl; lia).
  split; [exact Hneg|].
  exact (proj1 (lag_matrix_entries (L := Sample.integers) [0; 1; 4]%Z [5; 7]%Z Z.opp Hneg)).
Defined.

(** X4 at the pair (0, 0) of the one-task configuration. *)
Lemma pair_body_stores_pair_witness :
  ∃ s', pair_body Sample.one_task 0 0 (prepared Sample.one_array Sample.one_task)
        = (Ok tt, s') ∧
        data_tau s' !! "t_00" = Some [[0; -1]; [1; 0]]%Z.
Proof.
  eexists. split; [vm_compute; reflexivity|].
  edestruct (pair_body_stores_pair Sample.one_task 0 0
               (prepared Sample.one_array Sample.one_task))
    as (a & b & ti & tj & g & di & dj & _ & _ & _ & _ & Hdi & Hdj & _ & _ & Hlag & _);
    [lia|vm_compute; reflexivity|].
  rewrite Hlag. injection Hdi as <-. injection Hdj as <-. reflexivity.
Defined.

(** X5 at the one-task configuration. *)
Lemma one_task_construction_witness :
  ∃ s, construct Sample.one_array Sample.one_task = (Ok tt, s) ∧
       dispatched s = [product3 [-10; 10] [1; 3] [1; 3]]%Z ∧ nTasks s = 1.
Proof.
  destruct (one_task_construction (L := Sample.integers) [0; 1]%Z Sample.one_task
              Sample.SE (Sample.task 1 3)
              [-989; -987; -969; -967; 1011; 1013; 1031; 1033]%Z)
    as (s & Hs & _ & _ & Hd & Hn);
    [reflexivity|reflexivity|reflexivity|exact (reverse_Permutation _)
    |reflexivity|reflexivity|].
  exists s. split; [exact Hs|]. split; [exact Hd|exact Hn].
Defined.

(** X6 at a configuration without smoothness values and at one without
    task sections. *)
Lemma construct_config_errors_witness :
  (construct Sample.one_array Cases.no_smoothness).1 = Err (IndexError 0) ∧
  (construct Sample.one_array Cases.no_sections).1 = Err (KeyError "Task_1").
Proof.
  split.
  - destruct (construct_config_errors Sample.one_array Cases.no_smoothness)
      as [H _]; [vm_compute; lia|reflexivity|].
    destruct (H eq_refl) as (s & Hs & _). by rewrite Hs.
  - destruct (construct_config_errors Sample.one_array Cases.no_sections)
      as [_ H]; [vm_compute; lia|reflexivity|].
    destruct (H Sample.SE eq_refl eq_refl) as (s & Hs & _). by rewrite Hs.
Defined.

(** X7 on a grid of 2 x 2 x 2 points with a worker that fails at the lag
    10. *)
Lemma KcMM_worker_failure_witness :
  ∃ e, (KcMM (L := Cases.failing_worker) [1; 3]%Z [1; 3]%Z [-10; 10]%Z Sample.ready).1
       = Err (WorkerFailure e).
Proof.
  destruct (KcMM_worker_failure (L := Cases.failing_worker) Sample.ready
              Sample.SE Sample.SE [1; 3]%Z [1; 3]%Z [-10; 10]%Z (10, 1, 1)%Z
              (NameError "_spkv_") eq_refl eq_refl)
    as (e & q & Hrun & _);
    [exact (reverse_Permutation _)|vm_compute; set_solver|reflexivity|].
  exists e. by rewrite Hrun.
Defined.

(** X8 at the one-task assembler. *)
Lemma call_leaves_caches_witness :
  CovMat (__call__ [(2, 1)]%Z Sample.built).2 = CovMat Sample.built ∧
  data_tau (__call__ [(2, 1)]%Z Sample.built).2 = data_tau Sample.built.
Proof.
  destruct (call_leaves_caches [(2, 1)]%Z Sample.built
              (__call__ [(2, 1)]%Z Sample.built).1 (__call__ [(2, 1)]%Z Sample.built).2)
    as (Hc & Hd & _); [by destruct (__call__ _ _)|].
  split; [exact Hc|exact Hd].
Defined.

(** X9 at the one-task assembler and a parameter matrix of one row. *)
Lemma call_never_returns_witness :
  (construct Sample.one_array Sample.one_task).1 = Ok tt ∧
  __call__ [(2, 1)]%Z Sample.built
  = (Err (LibraryError "RegularGridInterpolator.__call__"), Sample.built) ∧
  ∃ e s', construct_and_call Sample.one_array Sample.one_task [(2, 1)]%Z = (Err e, s').
Proof.
  destruct (call_never_returns [(2, 1)]%Z Sample.built Sample.one_array Sample.one_task)
    as (_ & _ & Hfirst & Hwhole); [reflexivity|reflexivity|].
  split; [vm_compute; reflexivity|]. split; [|exact Hwhole].
  destruct (CovMat Sample.built !! pair_key 0 0) as [[g|o]|] eqn:Hg;
    [|vm_compute in Hg; discriminate..].
  destruct (data_tau Sample.built !! pair_key 0 0) as [lag|] eqn:Hlag;
    [|vm_compute in Hlag; discriminate].
  apply (Hfirst g lag); [vm_compute; lia|discriminate|reflexivity|reflexivity].
Defined.

(** X11 on a grid of 2 x 2 x 2 points. *)
Lemma KcMM_shape_witness :
  ∃ g, (KcMM [1; 3]%Z [1; 3]%Z [-10; 10]%Z Sample.ready).1 = Ok g ∧
       length (values g) = 2.
Proof.
  destruct (KcMM [1; 3]%Z [1; 3]%Z [-10; 10]%Z Sample.ready) as [[g|e] s'] eqn:Hk;
    [|vm_compute in Hk; discriminate].
  exists g. split; [reflexivity|].
  destruct (KcMM_shape _ _ _ _ _ _ Hk) as (_ & _ & _ & Hlen & _). exact Hlen.
Defined.

(** * The grid builder with the integrand of the source *)

Section GridIntegrand.
Context {S : Basis.SpecialFunctions} (L : Libraries R).

Lemma sequential_grid {A B} (f : A * A * A → result B) (tau l2 l1 : list A) (ys : list B) :
  sequential_map f (product3 tau l2 l1) = Ok ys →
  map (map (map Ok)) (reshape3 (length tau) (length l2) (length l1) ys)
  = enumerated_grid f tau l2 l1.
Proof.
  intros Hys. apply sequential_map_Forall2, Forall2_Ok_map in Hys.
  rewrite <-reshape3_product3, <-Hys. unfold reshape3.
  rewrite map_map, chunk_map, map_map. apply List.map_ext. intros r.
  by rewrite chunk_map.
Qed.

(** X18. With the integrand of the source, the entry of the array at
    (tau[a], l2_values[b], l1_values[c]) is the integral that quad returns for
    the function u -> gMdef(u, nu1, l2_values[b]) * gMdef(tau[a] - u, nu2,
    l1_values[c]): the work items are the triples (tau, l2, l1) of
    [itertools.product], and [gMMdef_integrand] unpacks a triple as
    (tau, l1, l2), so that [nu1] goes with the value of the axis
    [l2_values] and [nu2] with the value of the axis [l1_values]. *)
Theorem KcMM_integrand_roles (s : Kernels R) (n1 n2 : Nu) (l1 l2 tau : list R) g s' :
  nu1 s = Some n1 → nu2 s = Some n2 →
  completion_order (product3 tau l2 l1) ≡ₚ seq 0 (length (product3 tau l2 l1)) →
  KcMM (L := with_basis_integrand L) l1 l2 tau s = (Ok g, s') →
  grid g = (tau, l2, l1) ∧
  ∀ a b c ta tb tc,
    tau !! a = Some ta → l2 !! b = Some tb → l1 !! c = Some tc →
    ∃ plane line v err,
      values g !! a = Some plane ∧ plane !! b = Some line ∧ line !! c = Some v ∧
      Basis.quad (λ u, x ← Basis.gMdef u n1 tb;
                       y ← Basis.gMdef (ta - u)%R n2 tc;
                       Basis.py_mul x y) = Ok (v, err).
Proof.
  intros H1 H2 Hperm Hrun.
  rewrite (KcMM_run (L := with_basis_integrand L) _ _ _ _ _ _ H1 H2) in Hrun.
  destruct (pool_map _ _ _) as [ys|e] eqn:Hpool; [|discriminate].
  apply pool_map_sequential in Hpool; [|exact Hperm].
  unfold new_RegularGridInterpolator in Hrun.
  destruct (rgi_accepts _ _ _ _); [|discriminate].
  injection Hrun as <- <-. split; [reflexivity|].
  intros a b c ta tb tc Ha Hb Hc.
  destruct (grid_entry _ _ _ _ _ a b c ta tb tc (sequential_grid _ _ _ _ _ Hpool) Ha Hb Hc)
    as (plane & line & v & Hp & Hl & Hv & Hf).
  simpl in Hf. unfold Basis.gMMdef_integrand in Hf.
  destruct (Basis.quad _) as [[i err]|e] eqn:Hq; [|discriminate].
  simpl in Hf. injection Hf as ->. exists plane, line, v, err. done.
Qed.

End GridIntegrand.

(** X18 on a grid of one point, with the one-point rule for quad. *)
Lemma KcMM_integrand_roles_witness :
  ∃ g v err, (KcMM (L := @with_basis_integrand Sample.flat_backend Cases.over_reals)
                [1%R] [2%R] [0%R]
                (set_nu2 Sample.SE (set_nu1 Sample.SE blank))).1 = Ok g ∧
             (∃ plane line, values g !! 0 = Some plane ∧ plane !! 0 = Some line ∧
                            line !! 0 = Some v) ∧
             Basis.quad (SpecialFunctions := Sample.flat_backend)
               (λ u, x ← Basis.gMdef u Sample.SE 2;
                     y ← Basis.gMdef (0 - u)%R Sample.SE 1;
                     Basis.py_mul x y) = Ok (v, err).
Proof.
  destruct (KcMM (L := @with_basis_integrand Sample.flat_backend Cases.over_reals)
              [1%R] [2%R] [0%R] (set_nu2 Sample.SE (set_nu1 Sample.SE blank)))
    as [[g|e] s'] eqn:Hk.
  - destruct (KcMM_integrand_roles (S := Sample.flat_backend) Cases.over_reals
                (set_nu2 Sample.SE (set_nu1 Sample.SE blank)) Sample.SE Sample.SE
                [1%R] [2%R] [0%R] g s' eq_refl eq_refl (Permutation_refl _) Hk)
      as [_ Hentry].
    destruct (Hentry 0 0 0 0%R 2%R 1%R eq_refl eq_refl eq_refl)
      as (plane & line & v & err & Hp & Hl & Hv & Hq).
    exists g, v, err. split; [reflexivity|]. split; [by eauto|exact Hq].
  - exfalso.
    rewrite (KcMM_run (L := @with_basis_integrand Sample.flat_backend Cases.over_reals)
               (set_nu2 Sample.SE (set_nu1 Sample.SE blank)) Sample.SE Sample.SE
               [1%R] [2%R] [0%R] eq_refl eq_refl) in Hk.
    discriminate Hk.
Defined.

(** * Properties of the class [Data] *)

Section DatabaseFacts.
Import Database.
Context {F : Type} {G : Getters F}.
Local Open Scope list_scope.

Lemma assert_all_Returned (l : list item) :
  assert_all l = Returned tt ↔ Forall (λ d, in_datalist d = true) l.
Proof.
  induction l as [|d l IH]; simpl.
  - split; [constructor|done].
  - destruct (in_datalist d) eqn:Hd.
    + rewrite IH. split; [by constructor|by intros [_ ?]%Forall_cons].
    + split; [discriminate|]. intros [? _]%Forall_cons. congruence.
Qed.

Lemma in_datalist_Name (d : item) :
  in_datalist d = true ↔ ∃ s, d = Name s ∧ s ∈ datalist.
Proof.
  destruct d as [s|t]; simpl.
  - rewrite bool_decide_eq_true. split; [by eauto|]. by intros (? & [= <-] & ?).
  - split; [discriminate|]. by intros (? & [=] & _).
Qed.

(** X12. [Data(data)] accepts a string of the list of data sets and a list
    whose elements all are such strings (the empty list among them), and
    nothing else: every element of [self.data] is then a name of the list. A
    list is rejected with the assertion on its first offending element, a
    string that is not in the list with the assertion on that string, and
    an argument that is neither a string nor a list with [TypeError]. *)
Theorem init_validates (data : argument) :
  (∀ l, __init__ data = Returned l ↔
        (∃ s, data = OneName s ∧ s ∈ datalist ∧ l = [Name s]) ∨
        (data = Names l ∧ Forall (λ d, in_datalist d = true) l)) ∧
  (∀ l, __init__ data = Returned l → Forall (λ d, ∃ s, d = Name s ∧ s ∈ datalist) l) ∧
  (∀ good d rest, Forall (λ d, in_datalist d = true) good → in_datalist d = false →
     __init__ (Names (good ++ d :: rest))
     = Raised (Assertion (item_text d +:+ " is not in " +:+ datalist_text))) ∧
  (∀ s, s ∉ datalist →
     __init__ (OneName s) = Raised (Assertion (s +:+ " is not in " +:+ datalist_text))) ∧
  (∀ text, __init__ (Neither text) = Raised (Type_error (text +:+ " is not a valid type"))) ∧
  (∀ e, __init__ data = Raised e →
     (∃ msg, e = Assertion msg ∧ ∀ text, data ≠ Neither text) ∨
     (∃ text, e = Type_error (text +:+ " is not a valid type") ∧ data = Neither text)).
Proof.
  assert (Hiff : ∀ l, __init__ data = Returned l ↔
        (∃ s, data = OneName s ∧ s ∈ datalist ∧ l = [Name s]) ∨
        (data = Names l ∧ Forall (λ d, in_datalist d = true) l)).
  { intros l. destruct data as [s|l'|t]; simpl.
    - case_bool_decide as Hs; split.
      + intros [= <-]. left. eauto.
      + intros [(s' & [= <-] & _ & ->)|[[=] _]]. reflexivity.
      + discriminate.
      + intros [(s' & [= <-] & ? & _)|[[=] _]]. done.
    - destruct (assert_all l') as [[]|e] eqn:Hl'; simpl; split.
      + intros [= <-]. right. split; [done|]. by apply assert_all_Returned.
      + intros [(s' & [=] & _)|[[= <-] _]]. reflexivity.
      + discriminate.
      + intros [(s' & [=] & _)|[[= <-] Hall]].
        apply assert_all_Returned in Hall. congruence.
    - split; [discriminate|]. by intros [(s' & [=] & _)|[[=] _]]. }
  split; [exact Hiff|]. split; [|split; [|split; [|split]]].
  - intros l [(s & _ & Hs & ->)|[_ Hall]]%Hiff.
    + repeat constructor. eauto.
    + eapply Forall_impl; [exact Hall|]. intros d. apply in_datalist_Name.
  - intros good d rest Hgood Hd. simpl.
    assert (Hrun : assert_all (good ++ d :: rest)
                   = Raised (Assertion (item_text d +:+ " is not in " +:+ datalist_text))).
    { induction Hgood as [|g good Hg _ IH]; simpl; [by rewrite Hd|by rewrite Hg]. }
    by rewrite Hrun.
  - intros s Hs. simpl. by rewrite bool_decide_eq_false_2.
  - reflexivity.
  - intros e. destruct data as [s|l|text]; simpl.
    + case_bool_decide; [discriminate|]. intros [= <-]. left. eauto.
    + assert (Hlist : ∀ l', assert_all l' = Raised e → ∃ msg, e = Assertion msg).
      { induction l' as [|d l' IH]; simpl; [discriminate|].
        destruct (in_datalist d); [exact IH|]. intros [= <-]. eauto. }
      destruct (assert_all l) as [[]|e'] eqn:Hl; simpl; [discriminate|].
      intros [= ->]. left. destruct (Hlist l Hl) as [msg ->]. eauto.
    + intros [= <-]. right. eauto.
Qed.

Lemma is_name_true (d : item) (s : string) : is_name d s = true ↔ d = Name s.
Proof.
  destruct d as [t|t]; simpl; [|split; discriminate].
  rewrite bool_decide_eq_true. split; congruence.
Qed.

Lemma from_getter_not_Value_error (r : string + dataset F) (msg : string) :
  from_getter r ≠ Raised (Value_error msg).
Proof. by destruct r. Qed.

(** X13. The branches of [get_data] and the list that the constructor
    checks agree: for a name that the constructor accepts, [get_data] never
    raises its [ValueError], and for anything else it always does. *)
Theorem get_data_branches (choose : item) (paramdict : gmap string F) :
  (in_datalist choose = true → ∀ msg, get_data choose paramdict ≠ Raised (Value_error msg)) ∧
  (in_datalist choose = false →
     get_data choose paramdict
     = Raised (Value_error (item_text choose +:+ " is not a valid data set"))).
Proof.
  split.
  - intros (s & -> & Hs)%in_datalist_Name msg. unfold get_data, datalist in *.
    repeat (apply elem_of_cons in Hs as [->|Hs]); [..|by apply elem_of_nil in Hs];
      simpl; repeat case_match; try done; apply from_getter_not_Value_error.
  - intros Hout. unfold get_data.
    assert (Hno : ∀ s, s ∈ datalist → is_name choose s = false).
    { intros s Hs. apply not_true_is_false. intros ->%is_name_true.
      simpl in Hout. by rewrite bool_decide_eq_true_2 in Hout. }
    rewrite !Hno by (unfold datalist; set_solver). reflexivity.
Qed.

(** X14. [get_data] looks at [paramdict] for two data sets only: 'GR'
    fails its assertion when the key 'file' is absent, 'GRB' fails its own
    when one of 'Lambda', 'b', 'sigma_sys' is absent, and otherwise each
    passes the values to its getter; for every other data set the result
    does not depend on [paramdict]. *)
Theorem get_data_paramdict (choose : item) (paramdict other : gmap string F) :
  (paramdict !! "file" = None →
     get_data (Name "GR") paramdict = Raised (Assertion "file no must be in paramdict")) ∧
  (∀ file, paramdict !! "file" = Some file →
     get_data (Name "GR") paramdict = from_getter (get_growth file)) ∧
  (paramdict !! "Lambda" = None ∨ paramdict !! "b" = None ∨ paramdict !! "sigma_sys" = None →
     get_data (Name "GRB") paramdict
     = Raised (Assertion "Lambda, b and sigma_sys must be in paramdict")) ∧
  (∀ Lambda b sigma_sys, paramdict !! "Lambda" = Some Lambda → paramdict !! "b" = Some b →
     paramdict !! "sigma_sys" = Some sigma_sys →
     get_data (Name "GRB") paramdict = from_getter (get_GRB Lambda b sigma_sys)) ∧
  (choose ≠ Name "GR" → choose ≠ Name "GRB" →
     get_data choose paramdict = get_data choose other).
Proof.
  split; [|split; [|split; [|split]]].
  - intros H. unfold get_data. simpl. by rewrite H.
  - intros file H. unfold get_data. simpl. by rewrite H.
  - intros H. unfold get_data. simpl.
    destruct H as [H|[H|H]]; rewrite H; by repeat case_match.
  - intros Lambda b sigma_sys H1 H2 H3. unfold get_data. simpl. by rewrite H1, H2, H3.
  - intros HGR HGRB. unfold get_data.
    assert (is_name choose "GR" = false) as ->
      by (apply not_true_is_false; by intros ?%is_name_true).
    assert (is_name choose "GRB" = false) as ->
      by (apply not_true_is_false; by intros ?%is_name_true).
    reflexivity.
Qed.

Lemma zip_with_replicate_r {A B C} (f : A → B → C) (l : list A) (y : B) (n : nat) :
  length l = n → zip_with f l (replicate n y) = map (λ x, f x y) l.
Proof.
  intros <-. induction l as [|x l IH]; simpl; [done|]. by rewrite IH.
Qed.

Lemma length_block_diagonal (matrices : list (ndarray F)) :
  Forall well_shaped matrices →
  length (block_diagonal matrices) = sum_list (shape0 <$> matrices).
Proof.
  induction 1 as [|m ms [Hm _] _ IH]; simpl; [done|].
  by rewrite length_app, !length_map, IH, Hm.
Qed.

(** The loop started below the lines already filled. *)
Lemma fill_blocks_square (matrices : list (ndarray F)) (k T : nat) (above : list (list F)) :
  Forall well_shaped matrices → Forall (λ m, shape0 m = shape1 m) matrices →
  length above = k → T = sum_list (shape0 <$> matrices) →
  fill_blocks (k + T) k k matrices (above ++ replicate T (replicate (k + T) zero))
  = Returned (above ++ map (λ line, replicate k zero ++ line) (block_diagonal matrices)).
Proof.
  intros Hwf. revert k T above.
  induction Hwf as [|m ms [Hrows Hlines] _ IH]; intros k T above Hsq Hk HT.
  - simpl in HT. subst T. reflexivity.
  - apply Forall_cons in Hsq as [Hm Hsq].
    rewrite fmap_cons in HT. simpl in HT.
    remember (sum_list (shape0 <$> ms)) as T' eqn:HT'.
    remember (shape0 m) as n eqn:Hn. subst T.
    cbn [fill_blocks block_diagonal]. rewrite <-HT', <-Hn, <-Hm.
    unfold assign_block. rewrite <-Hn, <-Hm.
    replace (k `min` (k + (n + T'))) with k by lia.
    replace ((k + n) `min` (k + (n + T')) - k) with n by lia.
    rewrite !bool_decide_eq_true_2 by done. cbn [orb andb and_then].
    rewrite take_app_length' by done.
    rewrite drop_app_length' by done.
    rewrite take_replicate, drop_app_add' by done.
    rewrite drop_replicate.
    replace (n `min` (n + T')) with n by lia.
    replace (n + T' - n) with T' by lia.
    rewrite (take_ge (cells m) n) by (by rewrite Hrows).
    rewrite zip_with_replicate_r by done.
    specialize (IH (k + n) T'
      (above ++ map (λ value, take k (replicate (k + (n + T')) zero) ++ take n value
                              ++ drop (k + n) (replicate (k + (n + T')) zero)) (cells m))
      Hsq).
    replace (k + n + T') with (k + (n + T')) in IH by lia.
    rewrite <-app_assoc in IH.
    rewrite IH by (done || (rewrite length_app, length_map; lia)).
    f_equal. rewrite <-app_assoc. f_equal. rewrite map_app, !map_map. f_equal.
    + apply map_ext_Forall. eapply Forall_impl; [exact Hlines|].
      intros line Hl. simpl. rewrite take_replicate, drop_replicate.
      replace (k `min` (k + (n + T'))) with k by lia.
      replace (k + (n + T') - (k + n)) with T' by lia.
      rewrite (take_ge line n) by (rewrite Hl; lia). reflexivity.
    + apply List.map_ext. intros line. rewrite replicate_add, <-app_assoc.
      reflexivity.
Qed.

Lemma block_diagonal_lines (matrices : list (ndarray F)) :
  Forall well_shaped matrices → Forall (λ m, shape0 m = shape1 m) matrices →
  Forall (λ line, length line = sum_list (shape0 <$> matrices)) (block_diagonal matrices).
Proof.
  induction 1 as [|m ms [Hrows Hlines] Hwf IH]; intros Hsq.
  - constructor.
  - apply Forall_cons in Hsq as [Hm Hsq]. specialize (IH Hsq).
    rewrite fmap_cons. cbn [block_diagonal].
    remember (sum_list (shape0 <$> ms)) as T eqn:HT.
    assert (Hsum : sum_list (shape0 m :: (shape0 <$> ms)) = shape0 m + T)
      by (by rewrite HT).
    rewrite Hsum. apply Forall_app. split.
    + apply Forall_forall. intros line Hl.
      apply list_elem_of_In, in_map_iff in Hl as (l0 & <- & Hl0).
      rewrite Forall_forall in Hlines. rewrite length_app, length_replicate.
      rewrite (Hlines l0) by (by apply list_elem_of_In). lia.
    + apply Forall_forall. intros line Hl.
      apply list_elem_of_In, in_map_iff in Hl as (l0 & <- & Hl0).
      rewrite Forall_forall in IH. rewrite length_app, length_replicate.
      rewrite (IH l0) by (by apply list_elem_of_In). lia.
Qed.

(** X15. For square blocks, [__block_matrix__] returns the block-diagonal
    matrix: a square array whose side is the sum of the sides, with the
    blocks along the diagonal in the order of the list and zeros
    elsewhere. *)
Theorem block_matrix_square (matrices : list (ndarray F)) :
  Forall well_shaped matrices → Forall (λ m, shape0 m = shape1 m) matrices →
  ∃ result, __block_matrix__ matrices = Returned result ∧
            shape0 result = sum_list (shape0 <$> matrices) ∧
            shape1 result = sum_list (shape0 <$> matrices) ∧
            cells result = block_diagonal matrices ∧
            well_shaped result.
Proof.
  intros Hwf Hsq. unfold __block_matrix__.
  pose proof (fill_blocks_square matrices 0 _ [] Hwf Hsq eq_refl eq_refl) as Hfill.
  cbn [app Nat.add] in Hfill. rewrite Hfill. cbn [and_then app replicate].
  assert (Hid : map (λ line : list F, line) (block_diagonal matrices)
                = block_diagonal matrices) by apply map_id.
  rewrite Hid. eexists. split; [reflexivity|]. cbn [shape0 shape1 cells].
  do 3 (split; [reflexivity|]). split; cbn [shape0 shape1 cells].
  - by apply length_block_diagonal.
  - by apply block_diagonal_lines.
Qed.

Lemma consistent_columns (ts : list (dataset F)) :
  Forall consistent ts →
  Forall well_shaped (map (λ t, t.2) ts) ∧
  Forall (λ m, shape0 m = shape1 m) (map (λ t, t.2) ts) ∧
  length (concat (map (λ t, t.1.1) ts)) = sum_list (shape0 <$> map (λ t, t.2) ts) ∧
  length (concat (map (λ t, t.1.2) ts)) = sum_list (shape0 <$> map (λ t, t.2) ts).
Proof.
  induction 1 as [|[[x y] covar] ts (Hwf & Hxy & Hy & Hsq) _ (IH1 & IH2 & IH3 & IH4)].
  - repeat split; constructor.
  - cbn [map concat fst snd]. rewrite fmap_cons.
    remember (sum_list (shape0 <$> map (λ t, t.2) ts)) as T eqn:HT.
    assert (Hsum : ∀ a l, sum_list (a :: l) = a + sum_list l) by done.
    rewrite !Hsum, <-HT, !length_app, IH3, IH4.
    split; [by constructor|]. split; [by constructor|]. lia.
Qed.

Lemma collect_app_Raised (good rest : list item) (d : item) (paramdict : gmap string F)
    (e : raised) :
  Forall (λ g, ∃ t, get_data g paramdict = Returned t) good →
  get_data d paramdict = Raised e →
  collect (good ++ d :: rest) paramdict = Raised e.
Proof.
  intros Hgood Hd. induction Hgood as [|g good [t Ht] _ IH]; simpl.
  - by rewrite Hd.
  - by rewrite Ht, IH.
Qed.

(** X16. [Data.__call__] with no data set raises inside [np.concatenate],
    although the constructor accepts the empty list. The first data set that
    fails makes the call fail with its exception. When every data set
    returns a triple that passes the assertion of the getters, the call
    returns the concatenated x, the concatenated y and the block-diagonal
    matrix of the covariances, and their sizes agree. *)
Theorem call_concatenates (self_data : list item) (paramdict : gmap string F) :
  Database.__init__ (Names []) = Returned [] ∧
  __call__ [] paramdict = Raised (Numpy_error "need at least one array to concatenate") ∧
  (∀ good d rest e, self_data = good ++ d :: rest →
     Forall (λ g, ∃ t, get_data g paramdict = Returned t) good →
     get_data d paramdict = Raised e →
     __call__ self_data paramdict = Raised e) ∧
  (∀ ts, self_data ≠ [] → collect self_data paramdict = Returned ts →
     Forall consistent ts →
     ∃ covar, __call__ self_data paramdict
              = Returned (concat (map (λ t, t.1.1) ts), concat (map (λ t, t.1.2) ts), covar) ∧
              cells covar = block_diagonal (map (λ t, t.2) ts) ∧
              length (concat (map (λ t, t.1.1) ts)) = shape0 covar ∧
              length (concat (map (λ t, t.1.2) ts)) = shape0 covar ∧
              shape1 covar = shape0 covar).
Proof.
  split; [reflexivity|]. split; [reflexivity|]. split.
  - intros good d rest e -> Hgood Hd. unfold __call__.
    by rewrite (collect_app_Raised good rest d paramdict e Hgood Hd).
  - intros ts Hne Hts Hcons. unfold __call__. rewrite Hts. cbn [and_then].
    assert (Hts_ne : ts ≠ []).
    { destruct self_data as [|d rest]; [done|]. simpl in Hts.
      destruct (get_data d paramdict); [|discriminate]. simpl in Hts.
      destruct (collect rest paramdict); [|discriminate]. simpl in Hts.
      by injection Hts as <-. }
    destruct (consistent_columns ts Hcons) as (Hwf & Hsq & Hx & Hy).
    destruct (block_matrix_square _ Hwf Hsq) as (covar & Hrun & H0 & H1 & Hcells & _).
    destruct ts as [|t ts]; [done|]. cbn [np_concatenate map and_then].
    cbn [map] in Hrun. rewrite Hrun. cbn [and_then].
    exists covar. split; [reflexivity|]. split; [exact Hcells|].
    cbn [map] in Hx, Hy. rewrite Hx, Hy, H0, H1. done.
Qed.

(** X17. A single block that is wider than it is tall (and wider than one
    column) does not fit the square result, whose side is the number of
    lines of the block: [__block_matrix__] raises inside numpy. In every
    other case a single block is accepted. *)
Theorem block_matrix_wide_block (m : ndarray F) :
  (shape0 m < shape1 m → shape1 m ≠ 1 →
     __block_matrix__ [m] = Raised (Numpy_error "could not broadcast input array")) ∧
  (shape1 m ≤ shape0 m ∨ shape1 m = 1 →
     ∃ result, __block_matrix__ [m] = Returned result ∧
               shape0 result = shape0 m ∧ shape1 result = shape0 m).
Proof.
  unfold __block_matrix__. rewrite fmap_cons, fmap_nil.
  assert (Hsize : sum_list [shape0 m] = shape0 m) by (simpl; lia).
  rewrite Hsize. cbn [fill_blocks]. unfold assign_block.
  replace (0 `min` shape0 m) with 0 by lia.
  replace ((0 + shape0 m) `min` shape0 m - 0) with (shape0 m) by lia.
  rewrite (bool_decide_eq_true_2 (shape0 m = shape0 m)) by done.
  cbn [orb andb]. split.
  - intros Hwide Hone.
    rewrite (bool_decide_eq_false_2 ((0 + shape1 m) `min` shape0 m - 0 = shape1 m))
      by lia.
    rewrite (bool_decide_eq_false_2 (shape1 m = 1)) by done. reflexivity.
  - intros Hfits.
    assert (Hok : bool_decide ((0 + shape1 m) `min` shape0 m - 0 = shape1 m)
                  || bool_decide (shape1 m = 1) = true).
    { destruct Hfits as [Hle|Hone].
      - rewrite (bool_decide_eq_true_2 (_ = shape1 m)) by lia. reflexivity.
      - rewrite (bool_decide_eq_true_2 (shape1 m = 1)) by done. apply orb_true_r. }
    rewrite Hok. cbn [and_then]. eexists. split; [reflexivity|]. done.
Qed.

End DatabaseFacts.

(** X12 at a list of two names, at a list whose second element is
    unknown, and at an argument that is neither a string nor a list. *)
Lemma init_validates_witness :
  Database.__init__ (Database.Names [Database.Name "CC"; Database.Name "BAO"])
  = Database.Returned [Database.Name "CC"; Database.Name "BAO"] ∧
  Database.__init__ (Database.Names [Database.Name "CC"; Database.Name "BAO-alam"])
  = Database.Raised (Database.Assertion
      "BAO-alam is not in ['CC', 'BAO', 'GR', 'Lya', 'GRB', 'SNE', 'QSA']") ∧
  Database.__init__ (Database.Neither "3")
  = Database.Raised (Database.Type_error "3 is not a valid type").
Proof.
  split; [|split].
  - apply (proj1 (init_validates _)). right. split; [reflexivity|].
    repeat constructor.
  - destruct (init_validates (Database.Names [])) as (_ & _ & Hlist & _).
    exact (Hlist [Database.Name "CC"] (Database.Name "BAO-alam") []
             ltac:(repeat constructor) eq_refl).
  - destruct (init_validates (Database.Names [])) as (_ & _ & _ & _ & Htype & _).
    exact (Htype "3").
Defined.

(** X13 at the names 'CC' and 'BAO-alam'. *)
Lemma get_data_branches_witness :
  (∀ msg, Database.get_data (G := Database.small_getters) (Database.Name "CC") ∅
          ≠ Database.Raised (Database.Value_error msg)) ∧
  Database.get_data (G := Database.small_getters) (Database.Name "BAO-alam") ∅
  = Database.Raised (Database.Value_error "BAO-alam is not a valid data set").
Proof.
  split.
  - exact (proj1 (get_data_branches (G := Database.small_getters)
                    (Database.Name "CC") ∅) eq_refl).
  - exact (proj2 (get_data_branches (G := Database.small_getters)
                    (Database.Name "BAO-alam") ∅) eq_refl).
Defined.

(** X14 at an empty [paramdict]. *)
Lemma get_data_paramdict_witness :
  Database.get_data (G := Database.small_getters) (Database.Name "GR") ∅
  = Database.Raised (Database.Assertion "file no must be in paramdict") ∧
  Database.get_data (G := Database.small_getters) (Database.Name "CC") ∅
  = Database.get_data (G := Database.small_getters) (Database.Name "CC") {[ "file" := 1%Z ]}.
Proof.
  destruct (get_data_paramdict (G := Database.small_getters) (Database.Name "CC")
              ∅ {[ "file" := 1%Z ]}) as (HGR & _ & _ & _ & Hother).
  split; [exact (HGR eq_refl)|]. apply Hother; discriminate.
Defined.

(** X15 at a 2 x 2 and a 1 x 1 block. *)
Lemma block_matrix_square_witness :
  ∃ result,
    Database.__block_matrix__ (G := Database.small_getters)
      [Database.diagonal2 4 9;
       {| Database.shape0 := 1; Database.shape1 := 1; Database.cells := [[5%Z]] |}]
    = Database.Returned result ∧
    Database.cells result = [[4; 0; 0]; [0; 9; 0]; [0; 0; 5]]%Z.
Proof.
  destruct (block_matrix_square (G := Database.small_getters)
    [Database.diagonal2 4 9;
     {| Database.shape0 := 1; Database.shape1 := 1; Database.cells := [[5%Z]] |}])
    as (result & Hrun & _ & _ & Hcells & _).
  - repeat constructor.
  - repeat constructor.
  - exists result. split; [exact Hrun|]. rewrite Hcells. reflexivity.
Defined.

(** X16 at the data sets 'CC' and 'BAO' of the small getters. *)
Lemma call_concatenates_witness :
  ∃ covar,
    Database.__call__ (G := Database.small_getters)
      [Database.Name "CC"; Database.Name "BAO"] ∅
    = Database.Returned ([1; 2; 3]%Z, [10; 20; 30]%Z, covar) ∧
    Database.cells covar = [[4; 0; 0]; [0; 9; 0]; [0; 0; 5]]%Z.
Proof.
  destruct (call_concatenates (G := Database.small_getters)
              [Database.Name "CC"; Database.Name "BAO"] ∅) as (_ & _ & _ & Hcall).
  destruct (Hcall [([1; 2]%Z, [10; 20]%Z, Database.diagonal2 4 9);
                   ([3]%Z, [30]%Z,
                    {| Database.shape0 := 1; Database.shape1 := 1;
                       Database.cells := [[5%Z]] |})])
    as (covar & Hrun & Hcells & _).
  - discriminate.
  - reflexivity.
  - repeat constructor.
  - exists covar. split; [exact Hrun|]. rewrite Hcells. reflexivity.
Defined.

(** X17 at a block of one line and two columns. *)
Lemma block_matrix_wide_block_witness :
  Database.__block_matrix__ (G := Database.small_getters)
    [{| Database.shape0 := 1; Database.shape1 := 2; Database.cells := [[1; 2]%Z] |}]
  = Database.Raised (Database.Numpy_error "could not broadcast input array").
Proof.
  apply (proj1 (block_matrix_wide_block (G := Database.small_getters) _)); simpl; lia.
Defined.
